(** * The TSNE operator of caffe2_bhtsne (src/tsne_op.cpp)

    A shallow embedding of [TSNEOp], the Caffe2 operator that wraps the
    Barnes-Hut t-SNE library: its constructor, its [RunOnDevice] and its
    operator schema, over a workspace of named blobs. *)

From Stdlib Require Import QArith.
From stdpp Require Import base gmap strings list.

Local Open Scope string_scope.
Local Open Scope list_scope.
Local Open Scope Z_scope.

(** ** Scalars *)

(** C++ [int]: the adapter only compares ints, it never does arithmetic on
    them, so they are kept as mathematical integers.  Tensor extents and
    integer arguments are taken to fit an [int]: the narrowing from the
    framework's 64-bit fields is outside the adapter and is not modelled. *)
Definition int : Type := Z.

(** IEEE-754 values, kept as exact data.  [float] (binary32) and [double]
    (binary64) share the representation: every float is a double, and the
    implicit widening that happens when a [float] member is passed for a
    [double] parameter preserves the value. *)
Inductive ieee : Type :=
  | NaN
  | Inf (negative : bool)
  | Fin (q : Q).

Definition float : Type := ieee.
Definition double : Type := ieee.

Definition float_to_double (f : float) : double := f.

(** The literals of the constructor's initialiser list: [50] and [0.5f]. *)
Definition float_50 : float := Fin (50 # 1).
Definition float_0_5 : float := Fin (1 # 2).

(** ** Tensors, blobs and operator definitions *)

(** Modelled from the spec: the host framework's element-type tag
    ([TypeMeta], caffe2/core/typeid.h, not under src/), of which the adapter
    only asks [IsType<double>()]: section 6 speaks of "wrong element type". *)
Inductive TypeMeta : Type :=
  | TUninitialized
  | TFloat
  | TDouble
  | TInt32
  | TInt64.

Global Instance TypeMeta_eq_dec : EqDecision TypeMeta.
Proof. solve_decision. Defined.

(** Modelled from the spec: the host framework's [TensorCPU]
    (caffe2/core/tensor.h, not under src/): a shape, an element type and the
    element storage, "N rows x D columns of double-precision values"
    (section 3).  The storage is only ever read at element type double. *)
Record Tensor : Type := mkTensor {
  dims : list int;
  meta : TypeMeta;
  storage : list double
}.

(** What a default-constructed tensor looks like: no shape, no type. *)
Definition empty_tensor : Tensor :=
  {| dims := []; meta := TUninitialized; storage := [] |}.

(** Number of elements of a shape. *)
Definition numel (ds : list int) : Z := foldr Z.mul 1 ds.

(** Modelled from the spec: the host framework's [Blob]
    (caffe2/core/blob.h, not under src/); a blob holds a tensor or an object
    of some other type (or nothing yet). *)
Inductive Blob : Type :=
  | BTensor (t : Tensor)
  | BOther.

(** A [const TensorCPU&], a [TensorCPU*] or a [double*] into a tensor's
    storage all designate a blob of the workspace: they are modelled by the
    blob's name, and every access goes through the workspace, so that two
    references to one blob see each other's writes. *)
Abbreviation TensorRef := string (only parsing).
Abbreviation ptr := string (only parsing).

(** Modelled from the spec: the host framework's [Argument] message
    (caffe2/proto/caffe2.proto, not under src/), with the two optional
    scalar fields the adapter reads. *)
Record Argument : Type := mkArgument {
  arg_i : option int;
  arg_f : option float
}.

(** Modelled from the spec: the host framework's [OperatorDef] message
    (caffe2/proto/caffe2.proto, not under src/): the names of the input and
    output blobs and the named arguments ("supplies input/output buffers,
    parameter values", section 1). *)
Record OperatorDef : Type := mkOperatorDef {
  input : list string;
  output : list string;
  arg : gmap string Argument
}.

(** ** The call boundary of the embedding library *)

(** The ten arguments of [TSNE::run], in the order of the call in
    [RunOnDevice] (section 6 of the specification lists the same ten). *)
Record RunCall : Type := mkRunCall {
  rc_X : ptr;
  rc_N : int;
  rc_D : int;
  rc_Y : ptr;
  rc_no_dims : int;
  rc_perplexity : double;
  rc_theta : double;
  rc_rand_seed : int;
  rc_skip_random_init : bool;
  rc_max_iter : int
}.

(** ** Machine state and the exception monad *)

(** What can stop an operator: a failed [CAFFE_ENFORCE] (the framework's
    [EnforceNotMet] exception), an index outside the operator's input or
    output list ([std::out_of_range] of [vector::at]), and the
    invalid-configuration signal of the embedding library. *)
Inductive Error : Type :=
  | EnforceNotMet (msg : string)
  | OutOfRange
  | InvalidConfiguration.

Inductive Result (A : Type) : Type :=
  | Ok (a : A)
  | Throw (e : Error).
Arguments Ok {A} a.
Arguments Throw {A} e.

(** The workspace of named blobs, and (ghost) the calls made to
    [TSNE::run] so far, oldest first. *)
Record State : Type := mkState {
  blobs : gmap string Blob;
  run_calls : list RunCall
}.

(** A computation reads and updates the state and returns or throws; the
    effects made before a throw stay, as in C++. *)
Definition M (A : Type) : Type := State → Result A * State.

Global Instance M_ret : MRet M := λ A a s, (Ok a, s).

Global Instance M_bind : MBind M := λ A B f m s,
  match m s with
  | (Ok a, s') => f a s'
  | (Throw e, s') => (Throw e, s')
  end.

Definition throw {A : Type} (e : Error) : M A := λ s, (Throw e, s).

Definition get_blob (name : string) : M (option Blob) :=
  λ s, (Ok (blobs s !! name), s).

Definition set_blob (name : string) (b : Blob) : M unit :=
  λ s, (Ok tt, {| blobs := <[name := b]> (blobs s); run_calls := run_calls s |}).

Definition record_call (c : RunCall) : M unit :=
  λ s, (Ok tt, {| blobs := blobs s; run_calls := run_calls s ++ [c] |}).

(** Modelled from the spec: the host framework's [CAFFE_ENFORCE] macro
    (caffe2/core/logging.h, not under src/); the source says of it "If this
    is not met, an exception is going to be thrown", the specification "fatal
    configuration errors that abort the whole operation" (section 7). *)
Definition CAFFE_ENFORCE (condition : bool) (msg : string) : M unit :=
  if condition then mret tt else throw (EnforceNotMet msg).

(** ** Operator arguments *)

(** The field of an [Argument] that holds a value of C++ type [T]. *)
Class ArgType (T : Type) : Type := arg_field : Argument → option T.

Global Instance int_ArgType : ArgType int := arg_i.
Global Instance float_ArgType : ArgType float := arg_f.

(** Modelled from the spec: the host framework's [OP_SINGLE_ARG] macro and
    the [GetSingleArgument<T>] it expands to (caffe2/core/operator.h, not
    under src/): the named argument if the definition has it, the given
    default otherwise (the schema text in the source: "(float, default 50)",
    "(int, default 1000)"); an argument that is present without a field of
    the requested type is a configuration error. *)
Definition OP_SINGLE_ARG (T : Type) `{!ArgType T}
    (operator_def : OperatorDef) (name : string) (default : T) : M T :=
  match arg operator_def !! name with
  | None => mret default
  | Some a =>
      match arg_field a with
      | Some v => mret v
      | None => throw (EnforceNotMet "Argument does not have the right field.")
      end
  end.

(** ** Operator schemas *)

(** Modelled from the spec: the host framework's [OpSchema]
    (caffe2/core/operator_schema.h, not under src/), restricted to what the
    schema of the source sets: input and output counts and the in-place
    rules ("the optional second input sharing storage with the output",
    section 9). *)
Record OpSchema : Type := mkOpSchema {
  min_input : Z;
  max_input : Z;
  min_output : Z;
  max_output : Z;
  inplace_allowed : nat → nat → bool;
  inplace_enforced : nat → nat → bool
}.

Definition INT_MAX : Z := 2147483647.

(** A schema on which no builder method has been called yet: any number of
    inputs and outputs, no in-place pair allowed, none enforced. *)
Definition OpSchema_new : OpSchema :=
  {| min_input := 0; max_input := INT_MAX;
     min_output := 0; max_output := INT_MAX;
     inplace_allowed := λ _ _, false;
     inplace_enforced := λ _ _, false |}.

Definition NumInputs (lo hi : Z) (sch : OpSchema) : OpSchema :=
  {| min_input := lo; max_input := hi;
     min_output := min_output sch; max_output := max_output sch;
     inplace_allowed := inplace_allowed sch;
     inplace_enforced := inplace_enforced sch |}.

Definition NumOutputs (n : Z) (sch : OpSchema) : OpSchema :=
  {| min_input := min_input sch; max_input := max_input sch;
     min_output := n; max_output := n;
     inplace_allowed := inplace_allowed sch;
     inplace_enforced := inplace_enforced sch |}.

Definition EnforceInplace (pairs : list (nat * nat)) (sch : OpSchema) : OpSchema :=
  {| min_input := min_input sch; max_input := max_input sch;
     min_output := min_output sch; max_output := max_output sch;
     inplace_allowed := inplace_allowed sch;
     inplace_enforced := λ i o, bool_decide ((i, o) ∈ pairs) |}.

(** One (input, output) pair passes the in-place check unless the two names
    are equal without the pair being allowed or enforced, or differ although
    the pair is enforced. *)
Definition inplace_ok (sch : OpSchema) (def : OperatorDef) (in_idx out_idx : nat) : bool :=
  let same := bool_decide (input def !! in_idx = output def !! out_idx) in
  negb (same && negb (inplace_allowed sch in_idx out_idx)
             && negb (inplace_enforced sch in_idx out_idx))
  && negb (negb same && inplace_enforced sch in_idx out_idx).

(** Modelled from the spec: the host framework's [OpSchema::Verify]
    (caffe2/core/operator_schema.cc, not under src/): the definition has an
    admissible number of inputs and outputs and every (input, output) pair
    respects the in-place rules.  The source states the rule it relies on:
    "If there are two inputs, the second input and the first output should
    always be in-place". *)
Definition Verify (sch : OpSchema) (def : OperatorDef) : bool :=
  bool_decide (min_input sch ≤ Z.of_nat (length (input def)) ≤ max_input sch)%Z
  && bool_decide (min_output sch ≤ Z.of_nat (length (output def)) ≤ max_output sch)%Z
  && forallb (λ in_idx,
       forallb (λ out_idx, inplace_ok sch def in_idx out_idx)
               (seq 0 (length (output def))))
     (seq 0 (length (input def))).

(** [OPERATOR_SCHEMA(TSNE)]: one or two inputs, one output, input 1 and
    output 0 in place. *)
Definition TSNE_schema : OpSchema :=
  EnforceInplace [(1%nat, 0%nat)] (NumOutputs 1 (NumInputs 1 2 OpSchema_new)).

(** ** Tensor access through references *)

(** The tensor a reference designates in the current workspace. *)
Definition deref (r : TensorRef) : M Tensor := λ s,
  (Ok (match blobs s !! r with
       | Some (BTensor t) => t
       | _ => empty_tensor
       end), s).

Definition ndim (r : TensorRef) : M int :=
  t ← deref r; mret (Z.of_nat (length (dims t))).

Definition IsType (T : TypeMeta) (r : TensorRef) : M bool :=
  t ← deref r; mret (bool_decide (meta t = T)).

(** Modelled from the spec: the host framework's [Tensor::dim32]
    (caffe2/core/tensor.h, not under src/): the extent of one dimension as
    an [int]; asking for a dimension the tensor does not have is an error. *)
Definition dim32 (r : TensorRef) (i : nat) : M int :=
  t ← deref r;
  match dims t !! i with
  | Some d => mret d
  | None => throw (EnforceNotMet "Exceeding ndim limit")
  end.

(** Modelled from the spec: the host framework's [Tensor::Resize]
    (caffe2/core/tensor.h, not under src/): the tensor takes the given
    shape ("reshape it to the correct shape", says the source). *)
Definition Resize (r : TensorRef) (ds : list int) : M unit :=
  t ← deref r;
  set_blob r (BTensor {| dims := ds; meta := meta t; storage := storage t |}).

(** [data<T>()]: the const pointer to the storage. *)
Definition data (T : TypeMeta) (r : TensorRef) : M ptr := mret r.

(** Reading and writing through a [double*]. *)
Definition load (p : ptr) : M (list double) :=
  t ← deref p; mret (storage t).

Definition store (p : ptr) (v : list double) : M unit :=
  b ← get_blob p;
  match b with
  | Some (BTensor t) =>
      set_blob p (BTensor {| dims := dims t; meta := meta t; storage := v |})
  | _ => mret tt
  end.

(** [x >= q] for an IEEE value and a rational; never true of NaN. *)
Definition ieee_ge_Q (x : ieee) (q : Q) : bool :=
  match x with
  | NaN => false
  | Inf negative => negb negative
  | Fin v => Qle_bool q v
  end.

Definition perplexity_too_large (perplexity : double) (N : int) : bool :=
  ieee_ge_Q perplexity (inject_Z N / 3)%Q.

(** ** The operator *)

(** The members of [TSNEOp] that the constructor sets, with the operator
    definition that the [Operator<CPUContext>] base keeps.  ([is_test_] is
    declared but never written or read; [tsne_] is the library object whose
    [run] is modelled below.) *)
Record TSNEOp : Type := mkTSNEOp {
  operator_def : OperatorDef;
  dims_ : int;
  perplexity_ : float;
  theta_ : float;
  random_seed_ : int;
  max_iter_ : int
}.

Definition InputSize (op : TSNEOp) : int :=
  Z.of_nat (length (input (operator_def op))).

(** Modelled from the spec: the host framework's [Operator::Input]
    (caffe2/core/operator.h, not under src/): "a const reference to the
    first input, which should be a TensorCPU object". *)
Definition Input (op : TSNEOp) (idx : nat) : M TensorRef :=
  match input (operator_def op) !! idx with
  | None => throw OutOfRange
  | Some name =>
      b ← get_blob name;
      match b with
      | Some (BTensor _) => mret name
      | _ => throw (EnforceNotMet "wrong type for the Blob instance.")
      end
  end.

(** Modelled from the spec: the host framework's [Operator::Output]
    (caffe2/core/operator.h, not under src/): the output blob's tensor,
    made afresh when the blob does not hold one yet. *)
Definition Output (op : TSNEOp) (idx : nat) : M TensorRef :=
  match output (operator_def op) !! idx with
  | None => throw OutOfRange
  | Some name =>
      b ← get_blob name;
      match b with
      | Some (BTensor _) => mret name
      | _ => set_blob name (BTensor empty_tensor);; mret name
      end
  end.

(** The constructor [TSNEOp::TSNEOp]. *)
Definition TSNEOp_new (operator_def : OperatorDef) : M TSNEOp :=
  dims ← OP_SINGLE_ARG int operator_def "dims" 0;
  perplexity ← OP_SINGLE_ARG float operator_def "perplexity" float_50;
  theta ← OP_SINGLE_ARG float operator_def "theta" float_0_5;
  random_seed ← OP_SINGLE_ARG int operator_def "random_seed" 0;
  max_iter ← OP_SINGLE_ARG int operator_def "max_iter" 1000;
  CAFFE_ENFORCE (bool_decide (dims > 0))
    "You should specify the number of output dimensions.";;
  mret {| operator_def := operator_def; dims_ := dims;
          perplexity_ := perplexity; theta_ := theta;
          random_seed_ := random_seed; max_iter_ := max_iter |}.

(** Modelled from the spec: the host framework's [CreateOperator]
    (caffe2/core/operator.cc, not under src/), for the type the source
    registers with [REGISTER_CPU_OPERATOR(TSNE, TSNEOp)]: the definition is
    checked against the registered schema, then the operator is built. *)
Definition CreateOperator (operator_def : OperatorDef) : M TSNEOp :=
  CAFFE_ENFORCE (Verify TSNE_schema operator_def)
    "Operator def did not pass schema checking.";;
  TSNEOp_new operator_def.

(** ** Vocabulary of the properties *)

(** What an operator definition says about a named argument of type [T]:
    the default when the name is absent, no value when the name is present
    without a field of type [T]. *)
Definition arg_value (T : Type) `{!ArgType T}
    (def : OperatorDef) (name : string) (default : T) : option T :=
  match arg def !! name with
  | None => Some default
  | Some a => arg_field a
  end.

(** The shape and type conditions on the inputs, for an input of [N] rows
    and [D] columns: the first input is a 2-dimensional tensor of doubles of
    shape (N, D) and the second input, if there is one, is a 2-dimensional
    tensor of doubles of shape (N, dims). *)
Definition first_input_ok (op : TSNEOp) (w : gmap string Blob) (N D : int) : Prop :=
  ∃ name t, input (operator_def op) !! 0%nat = Some name ∧
            w !! name = Some (BTensor t) ∧
            dims t = [N; D] ∧ meta t = TDouble.

Definition second_input_ok (op : TSNEOp) (w : gmap string Blob) (N : int) : Prop :=
  ∀ name, input (operator_def op) !! 1%nat = Some name →
          ∃ t, w !! name = Some (BTensor t) ∧
               dims t = [N; dims_ op] ∧ meta t = TDouble.

Definition preconditions (op : TSNEOp) (w : gmap string Blob) (N D : int) : Prop :=
  first_input_ok op w N D ∧ second_input_ok op w N.

(** An operator as [CreateOperator] builds it from its definition: the
    schema accepted the definition and the constructor returned. *)
Definition constructed (op : TSNEOp) : Prop :=
  ∃ s0, CreateOperator (operator_def op) s0 = (Ok op, s0).

(** [x >= q] as a proposition. *)
Definition ieee_ge (x : ieee) (q : Q) : Prop :=
  x = Inf false ∨ ∃ v, x = Fin v ∧ (q <= v)%Q.

(** ** Sample operators and workspaces *)

(** Four points in three dimensions, and an initial embedding of them in
    two. *)
Definition sample_X : Tensor :=
  {| dims := [4; 3]; meta := TDouble; storage := repeat (Fin (1 # 1)) 12 |}.

Definition sample_init : Tensor :=
  {| dims := [4; 2]; meta := TDouble; storage := repeat (Fin (0 # 1)) 8 |}.

Definition int_arg (z : int) : Argument := {| arg_i := Some z; arg_f := None |}.
Definition float_arg (f : float) : Argument := {| arg_i := None; arg_f := Some f |}.

(** [dims = 2] and [perplexity = 1], one input. *)
Definition def_one_input : OperatorDef :=
  {| input := ["X"]; output := ["Y"];
     arg := {[ "dims" := int_arg 2; "perplexity" := float_arg (Fin (1 # 1)) ]} |}.

(** The same with the initial embedding as second input, in place. *)
Definition def_two_inputs : OperatorDef :=
  {| input := ["X"; "Y"]; output := ["Y"];
     arg := {[ "dims" := int_arg 2; "perplexity" := float_arg (Fin (1 # 1)) ]} |}.

(** Only [dims] given: every other argument takes its default. *)
Definition def_defaults : OperatorDef :=
  {| input := ["X"]; output := ["Y"]; arg := {[ "dims" := int_arg 2 ]} |}.

(** No argument at all. *)
Definition def_no_dims : OperatorDef :=
  {| input := ["X"]; output := ["Y"]; arg := ∅ |}.

(** Two inputs, the second one not the output blob. *)
Definition def_not_in_place : OperatorDef :=
  {| input := ["X"; "Y0"]; output := ["Y"]; arg := {[ "dims" := int_arg 2 ]} |}.

(** Arguments outside any sensible range. *)
Definition def_odd_values : OperatorDef :=
  {| input := ["X"]; output := ["Y"];
     arg := {[ "dims" := int_arg 2;
               "perplexity" := float_arg (Fin (-3 # 1));
               "theta" := float_arg (Fin (7 # 1));
               "random_seed" := int_arg (-1);
               "max_iter" := int_arg (-5) ]} |}.

Definition op_one_input : TSNEOp :=
  {| operator_def := def_one_input; dims_ := 2;
     perplexity_ := Fin (1 # 1); theta_ := float_0_5;
     random_seed_ := 0; max_iter_ := 1000 |}.

Definition op_two_inputs : TSNEOp :=
  {| operator_def := def_two_inputs; dims_ := 2;
     perplexity_ := Fin (1 # 1); theta_ := float_0_5;
     random_seed_ := 0; max_iter_ := 1000 |}.

Definition op_defaults : TSNEOp :=
  {| operator_def := def_defaults; dims_ := 2;
     perplexity_ := float_50; theta_ := float_0_5;
     random_seed_ := 0; max_iter_ := 1000 |}.

(** A workspace with the input only, one with the initial embedding too,
    and one whose input is a vector of floats. *)
Definition state_X : State :=
  {| blobs := {[ "X" := BTensor sample_X ]}; run_calls := [] |}.

Definition state_XY : State :=
  {| blobs := {[ "X" := BTensor sample_X; "Y" := BTensor sample_init ]};
     run_calls := [] |}.

Definition state_bad : State :=
  {| blobs := {[ "X" := BTensor {| dims := [4]; meta := TFloat; storage := [] |} ]};
     run_calls := [] |}.

(** Three inputs, and a definition with two outputs. *)
Definition def_three_inputs : OperatorDef :=
  {| input := ["X"; "Y"; "Z"]; output := ["Y"]; arg := {[ "dims" := int_arg 2 ]} |}.

Definition def_two_outputs : OperatorDef :=
  {| input := ["X"]; output := ["Y"; "Z"]; arg := {[ "dims" := int_arg 2 ]} |}.

(** A workspace whose input is a 4 x 3 matrix of floats. *)
Definition state_float : State :=
  {| blobs := {[ "X" := BTensor {| dims := [4; 3]; meta := TFloat; storage := [] |} ]};
     run_calls := [] |}.

(** A stand-in for fresh memory and one for the numerical core (it moves
    every coordinate of the initial embedding to 1). *)
Definition sample_uninitialized (n : nat) : list double := repeat NaN n.

Definition sample_embed (X Y : list double) (c : RunCall) : list double :=
  map (λ _, Fin (1 # 1)) Y.

Section TSNE.

(** The contents of a freshly allocated buffer of the given length: not
    specified by the language. *)
Variable uninitialized : nat → list double.

(** The numerical core of the embedding library (sections 4.1 to 4.3 of the
    specification): the embedding it leaves in the output buffer, given the
    contents of the input buffer, the contents of the output buffer on entry
    and the arguments of the call.  It is floating-point code outside the
    adapter and stays a parameter. *)
Variable embed : list double → list double → RunCall → list double.

(** Modelled from the spec: the host framework's [Tensor::mutable_data<T>]
    (caffe2/core/tensor.h, not under src/); the source: "gives the
    underlying storage, and also, if necessary, does the actual memory
    allocation". *)
Definition mutable_data (T : TypeMeta) (r : TensorRef) : M ptr :=
  t ← deref r;
  (if bool_decide (meta t = T)
      && bool_decide (Z.of_nat (length (storage t)) = numel (dims t))
   then mret tt
   else set_blob r (BTensor {| dims := dims t; meta := T;
                               storage := uninitialized (Z.to_nat (numel (dims t))) |}));;
  mret r.

(** Modelled from the spec: [TSNE::run] of the embedding library
    (bhtsne/tsne.cpp, declared in tsne.h, not under src/).  Section 8:
    "perplexity >= N/3 -> fails fast with an invalid-configuration signal
    rather than running"; section 3: the input matrix is "read-only to the
    core", the output matrix "written by the core"; section 6: "No return
    value beyond having filled the output buffer". *)
Definition run (c : RunCall) : M unit :=
  if perplexity_too_large (rc_perplexity c) (rc_N c)
  then throw InvalidConfiguration
  else
    X ← load (rc_X c);
    Y ← load (rc_Y c);
    store (rc_Y c) (embed X Y c).

(** The call [tsne_->run(...)], noted in the trace as it is made. *)
Definition tsne_run (c : RunCall) : M unit :=
  record_call c;; run c.

(** [TSNEOp::RunOnDevice]. *)
Definition RunOnDevice (op : TSNEOp) : M bool :=
  let skip_random_init := bool_decide (InputSize op = 2) in
  X ← Input op 0;
  X_ndim ← ndim X;
  CAFFE_ENFORCE (bool_decide (X_ndim = 2))
    "TSNE expects a 2-dimensional tensor as input.";;
  X_is_double ← IsType TDouble X;
  CAFFE_ENFORCE X_is_double
    "TSNE expects the input to be of data type double.";;
  N ← dim32 X 0;
  D ← dim32 X 1;
  (if bool_decide (InputSize op = 2) then
     init ← Input op 1;
     init_ndim ← ndim init;
     CAFFE_ENFORCE (bool_decide (init_ndim = 2)) "init.ndim() == 2";;
     init_dim0 ← dim32 init 0;
     CAFFE_ENFORCE (bool_decide (init_dim0 = N)) "init.dim32(0) == N";;
     init_dim1 ← dim32 init 1;
     CAFFE_ENFORCE (bool_decide (init_dim1 = dims_ op)) "init.dim32(1) == dims_";;
     init_is_double ← IsType TDouble init;
     CAFFE_ENFORCE init_is_double "init.IsType<double>()"
   else mret tt);;
  Y ← Output op 0;
  Resize Y [N; dims_ op];;
  X_data ← data TDouble X;
  Y_data ← mutable_data TDouble Y;
  tsne_run {| rc_X := X_data; rc_N := N; rc_D := D;
              rc_Y := Y_data; rc_no_dims := dims_ op;
              rc_perplexity := float_to_double (perplexity_ op);
              rc_theta := float_to_double (theta_ op);
              rc_rand_seed := random_seed_ op;
              rc_skip_random_init := skip_random_init;
              rc_max_iter := max_iter_ op |};;
  mret true.

(** The call that the properties expect of [RunOnDevice] when the first
    input is blob [x] with [N] rows and [D] columns and the output is blob
    [y]: the operator's members, as they are. *)
Definition expected_call (op : TSNEOp) (x y : string) (N D : int) : RunCall :=
  {| rc_X := x; rc_N := N; rc_D := D; rc_Y := y; rc_no_dims := dims_ op;
     rc_perplexity := perplexity_ op; rc_theta := theta_ op;
     rc_rand_seed := random_seed_ op;
     rc_skip_random_init := bool_decide (length (input (operator_def op)) = 2%nat);
     rc_max_iter := max_iter_ op |}.

(** The contents of the output buffer when [run] is entered, for an output
    blob [b] reshaped to (N, dims): what the blob's tensor held if that was
    N x dims doubles, a fresh buffer otherwise. *)
Definition entry_storage (b : option Blob) (N dims : int) : list double :=
  let t := match b with Some (BTensor t) => t | _ => empty_tensor end in
  if bool_decide (meta t = TDouble)
     && bool_decide (Z.of_nat (length (storage t)) = numel [N; dims])
  then storage t
  else uninitialized (Z.to_nat (numel [N; dims])).

(** ** Basic facts: the schema *)

Lemma inplace_ok_TSNE (def : OperatorDef) (i o : nat) :
  inplace_ok TSNE_schema def i o = true ↔
  ((i, o) = (1%nat, 0%nat) ↔ input def !! i = output def !! o).
Proof.
  unfold inplace_ok, TSNE_schema, EnforceInplace; cbn.
  rewrite andb_true_r.
  assert (Hin : (i, o) ∈ [(1%nat, 0%nat)] ↔ (i, o) = (1%nat, 0%nat))
    by apply list_elem_of_singleton.
  repeat case_bool_decide; cbn; intuition congruence.
Qed.

Lemma Verify_TSNE_schema (def : OperatorDef) :
  Verify TSNE_schema def = true ↔
  ∃ x y, x ≠ y ∧ output def = [y] ∧ (input def = [x] ∨ input def = [x; y]).
Proof.
  unfold Verify. rewrite !andb_true_iff, !bool_decide_eq_true.
  change (min_input TSNE_schema) with 1%Z. change (max_input TSNE_schema) with 2%Z.
  change (min_output TSNE_schema) with 1%Z. change (max_output TSNE_schema) with 1%Z.
  destruct def as [ins outs args]; cbn [input output].
  split.
  - intros [[Hi Ho] Hp].
    destruct outs as [|y [|y' outs]]; cbn [length] in Ho; try lia.
    destruct ins as [|x [|x' [|x'' ins]]]; cbn [length] in Hi; try lia.
    + cbn in Hp. rewrite !andb_true_r in Hp.
      apply inplace_ok_TSNE in Hp; cbn in Hp.
      exists x, y. split_and!; auto. intros ->. destruct Hp as [_ Hp].
      specialize (Hp eq_refl). discriminate.
    + cbn in Hp. rewrite !andb_true_r, andb_true_iff in Hp.
      destruct Hp as [H0 H1].
      apply inplace_ok_TSNE in H0, H1; cbn in H0, H1.
      destruct H1 as [H1 _]. specialize (H1 eq_refl). simplify_eq.
      exists x, y. split_and!; auto. intros ->. destruct H0 as [_ H0].
      specialize (H0 eq_refl). discriminate.
  - intros (x & y & Hne & -> & [-> | ->]); cbn [length]; (split; [lia|]); cbn;
      rewrite !andb_true_r, ?andb_true_iff; repeat split;
      apply inplace_ok_TSNE; cbn; split; intros; simplify_eq; done.
Qed.

(** ** Basic facts: arguments and the constructor *)

Lemma bind_unfold {A B : Type} (m : M A) (f : A → M B) (s : State) :
  (m ≫= f) s =
  match m s with
  | (Ok a, s') => f a s'
  | (Throw e, s') => (Throw e, s')
  end.
Proof. reflexivity. Qed.

Lemma OP_SINGLE_ARG_unfold (T : Type) `{!ArgType T}
    (def : OperatorDef) (name : string) (default : T) (s : State) :
  OP_SINGLE_ARG T def name default s =
  match arg_value T def name default with
  | Some v => (Ok v, s)
  | None => (Throw (EnforceNotMet "Argument does not have the right field."), s)
  end.
Proof.
  unfold OP_SINGLE_ARG, arg_value.
  destruct (arg def !! name) as [a|]; [|reflexivity].
  destruct (arg_field a); reflexivity.
Qed.

(** The constructor either fails with an enforce error or builds the
    operator from the five argument values; it never touches the state. *)
Lemma TSNEOp_new_unfold (def : OperatorDef) (s : State) :
  TSNEOp_new def s =
  match arg_value int def "dims" 0,
        arg_value float def "perplexity" float_50,
        arg_value float def "theta" float_0_5,
        arg_value int def "random_seed" 0,
        arg_value int def "max_iter" 1000 with
  | Some d, Some p, Some t, Some r, Some m =>
      if bool_decide (d > 0)
      then (Ok {| operator_def := def; dims_ := d; perplexity_ := p;
                  theta_ := t; random_seed_ := r; max_iter_ := m |}, s)
      else (Throw (EnforceNotMet
              "You should specify the number of output dimensions."), s)
  | _, _, _, _, _ =>
      (Throw (EnforceNotMet "Argument does not have the right field."), s)
  end.
Proof.
  unfold TSNEOp_new.
  repeat (rewrite bind_unfold, OP_SINGLE_ARG_unfold;
          match goal with |- context [arg_value ?T ?d ?n ?v] =>
            destruct (arg_value T d n v); [|reflexivity] end).
  rewrite bind_unfold. unfold CAFFE_ENFORCE.
  case_bool_decide; reflexivity.
Qed.

Lemma TSNEOp_new_Ok (def : OperatorDef) (s s' : State) (op : TSNEOp) :
  TSNEOp_new def s = (Ok op, s') →
  s' = s ∧ operator_def op = def ∧ dims_ op > 0 ∧
  arg_value int def "dims" 0 = Some (dims_ op) ∧
  arg_value float def "perplexity" float_50 = Some (perplexity_ op) ∧
  arg_value float def "theta" float_0_5 = Some (theta_ op) ∧
  arg_value int def "random_seed" 0 = Some (random_seed_ op) ∧
  arg_value int def "max_iter" 1000 = Some (max_iter_ op).
Proof.
  rewrite TSNEOp_new_unfold.
  repeat (match goal with |- context [arg_value ?T ?d ?n ?v] =>
            destruct (arg_value T d n v); [|discriminate] end).
  case_bool_decide; [|discriminate].
  intros [= <- <-]. cbn. auto 10.
Qed.

Lemma TSNEOp_new_Throw (def : OperatorDef) (s s' : State) (e : Error) :
  TSNEOp_new def s = (Throw e, s') → s' = s ∧ ∃ msg, e = EnforceNotMet msg.
Proof.
  rewrite TSNEOp_new_unfold.
  repeat (match goal with |- context [arg_value ?T ?d ?n ?v] =>
            destruct (arg_value T d n v) end);
    try case_bool_decide; intros [= <- <-]; eauto.
Qed.

(** ** Basic facts: one step of [RunOnDevice] at a time *)

Lemma CAFFE_ENFORCE_true (msg : string) (s : State) :
  CAFFE_ENFORCE true msg s = (Ok tt, s).
Proof. reflexivity. Qed.

Lemma CAFFE_ENFORCE_false (msg : string) (s : State) :
  CAFFE_ENFORCE false msg s = (Throw (EnforceNotMet msg), s).
Proof. reflexivity. Qed.

(** Symbolic execution of one bind whose first computation is known. *)
Ltac step_with L := rewrite bind_unfold, L; cbv beta iota.

Ltac enforce_ok :=
  rewrite bind_unfold, CAFFE_ENFORCE_true; cbv beta iota.

Ltac enforce_fails :=
  rewrite bind_unfold, CAFFE_ENFORCE_false; cbv beta iota; eauto.

Lemma deref_tensor (r : TensorRef) (t : Tensor) (s : State) :
  blobs s !! r = Some (BTensor t) → deref r s = (Ok t, s).
Proof. unfold deref. intros ->. reflexivity. Qed.

Lemma Input_tensor (op : TSNEOp) (idx : nat) (name : string) (t : Tensor) (s : State) :
  input (operator_def op) !! idx = Some name →
  blobs s !! name = Some (BTensor t) →
  Input op idx s = (Ok name, s).
Proof.
  unfold Input, get_blob. intros -> Hb. rewrite bind_unfold, Hb. reflexivity.
Qed.

Lemma Input_no_tensor (op : TSNEOp) (idx : nat) (name : string) (s : State) :
  input (operator_def op) !! idx = Some name →
  (∀ t, blobs s !! name ≠ Some (BTensor t)) →
  Input op idx s = (Throw (EnforceNotMet "wrong type for the Blob instance."), s).
Proof.
  unfold Input, get_blob. intros -> Hb. rewrite bind_unfold.
  destruct (blobs s !! name) as [[t|]|]; try reflexivity.
  destruct (Hb t); reflexivity.
Qed.

Lemma ndim_tensor (r : TensorRef) (t : Tensor) (s : State) :
  blobs s !! r = Some (BTensor t) →
  ndim r s = (Ok (Z.of_nat (length (dims t))), s).
Proof. intros Hb. unfold ndim. rewrite bind_unfold, (deref_tensor _ _ _ Hb). reflexivity. Qed.

Lemma IsType_tensor (T : TypeMeta) (r : TensorRef) (t : Tensor) (s : State) :
  blobs s !! r = Some (BTensor t) →
  IsType T r s = (Ok (bool_decide (meta t = T)), s).
Proof. intros Hb. unfold IsType. rewrite bind_unfold, (deref_tensor _ _ _ Hb). reflexivity. Qed.

Lemma dim32_tensor (r : TensorRef) (i : nat) (t : Tensor) (d : int) (s : State) :
  blobs s !! r = Some (BTensor t) →
  dims t !! i = Some d →
  dim32 r i s = (Ok d, s).
Proof.
  intros Hb Hd. unfold dim32. rewrite bind_unfold, (deref_tensor _ _ _ Hb), Hd.
  reflexivity.
Qed.

(** The state in which blob [y] holds tensor [t], everything else as in [s]. *)
Lemma set_blob_lookup (y : string) (b : Blob) (s : State) :
  ∃ s', set_blob y b s = (Ok tt, s') ∧
        blobs s' !! y = Some b ∧
        (∀ k, k ≠ y → blobs s' !! k = blobs s !! k) ∧
        run_calls s' = run_calls s.
Proof.
  eexists; split; [reflexivity|]. cbn. split_and!; auto.
  - apply lookup_insert_eq.
  - intros k Hk. apply lookup_insert_ne; auto.
Qed.

Lemma Output_tensor (op : TSNEOp) (idx : nat) (y : string) (s : State) :
  output (operator_def op) !! idx = Some y →
  ∃ s',
    Output op idx s = (Ok y, s') ∧
    blobs s' !! y = Some (BTensor match blobs s !! y with
                                  | Some (BTensor t) => t
                                  | _ => empty_tensor
                                  end) ∧
    (∀ k, k ≠ y → blobs s' !! k = blobs s !! k) ∧
    run_calls s' = run_calls s.
Proof.
  intros Ho. unfold Output. rewrite Ho, bind_unfold. unfold get_blob.
  destruct (blobs s !! y) as [[t|]|] eqn:Hb; cbv beta iota.
  - exists s. auto.
  - rewrite bind_unfold.
    destruct (set_blob_lookup y (BTensor empty_tensor) s) as (s' & -> & ? & ? & ?).
    exists s'. auto.
  - rewrite bind_unfold.
    destruct (set_blob_lookup y (BTensor empty_tensor) s) as (s' & -> & ? & ? & ?).
    exists s'. auto.
Qed.

Lemma Resize_tensor (y : TensorRef) (ds : list int) (t : Tensor) (s : State) :
  blobs s !! y = Some (BTensor t) →
  ∃ s',
    Resize y ds s = (Ok tt, s') ∧
    blobs s' !! y = Some (BTensor {| dims := ds; meta := meta t; storage := storage t |}) ∧
    (∀ k, k ≠ y → blobs s' !! k = blobs s !! k) ∧
    run_calls s' = run_calls s.
Proof.
  intros Hb. unfold Resize. rewrite bind_unfold, (deref_tensor _ _ _ Hb).
  apply set_blob_lookup.
Qed.

(** The storage [mutable_data<double>] hands out for a tensor. *)
Lemma mutable_data_tensor (y : TensorRef) (t : Tensor) (s : State) :
  blobs s !! y = Some (BTensor t) →
  ∃ s',
    mutable_data TDouble y s = (Ok y, s') ∧
    blobs s' !! y =
      Some (BTensor {| dims := dims t; meta := TDouble;
                       storage :=
                         if bool_decide (meta t = TDouble)
                            && bool_decide (Z.of_nat (length (storage t)) = numel (dims t))
                         then storage t
                         else uninitialized (Z.to_nat (numel (dims t))) |}) ∧
    (∀ k, k ≠ y → blobs s' !! k = blobs s !! k) ∧
    run_calls s' = run_calls s.
Proof.
  intros Hb. unfold mutable_data.
  rewrite bind_unfold, (deref_tensor _ _ _ Hb). cbv beta iota.
  rewrite bind_unfold.
  destruct (bool_decide (meta t = TDouble)) eqn:Hm; cbn [andb].
  - destruct (bool_decide (_ = numel _)); cbv beta iota.
    + exists s. apply bool_decide_eq_true in Hm.
      split_and!; auto. rewrite Hb. destruct t; cbn in *; congruence.
    + destruct (set_blob_lookup y
        (BTensor {| dims := dims t; meta := TDouble;
                    storage := uninitialized (Z.to_nat (numel (dims t))) |}) s)
        as (s' & -> & ? & ? & ?).
      exists s'. auto.
  - destruct (set_blob_lookup y
      (BTensor {| dims := dims t; meta := TDouble;
                  storage := uninitialized (Z.to_nat (numel (dims t))) |}) s)
      as (s' & -> & ? & ? & ?).
    exists s'. auto.
Qed.

Lemma mret_unfold {A : Type} (a : A) (s : State) :
  (mret a : M A) s = (Ok a, s).
Proof. reflexivity. Qed.

Lemma tsne_run_spec (c : RunCall) (tX tY : Tensor) (s : State) :
  blobs s !! rc_X c = Some (BTensor tX) →
  blobs s !! rc_Y c = Some (BTensor tY) →
  ∃ s',
    run_calls s' = run_calls s ++ [c] ∧
    (∀ k, k ≠ rc_Y c → blobs s' !! k = blobs s !! k) ∧
    if perplexity_too_large (rc_perplexity c) (rc_N c)
    then tsne_run c s = (Throw InvalidConfiguration, s') ∧
         blobs s' !! rc_Y c = Some (BTensor tY)
    else tsne_run c s = (Ok tt, s') ∧
         blobs s' !! rc_Y c =
           Some (BTensor {| dims := dims tY; meta := meta tY;
                            storage := embed (storage tX) (storage tY) c |}).
Proof.
  intros HX HY. unfold tsne_run, run, record_call.
  rewrite bind_unfold. cbv beta iota.
  set (s1 := {| blobs := blobs s; run_calls := run_calls s ++ [c] |}).
  assert (HX1 : blobs s1 !! rc_X c = Some (BTensor tX)) by exact HX.
  assert (HY1 : blobs s1 !! rc_Y c = Some (BTensor tY)) by exact HY.
  destruct (perplexity_too_large _ _).
  - exists s1. cbn. auto.
  - unfold load, store.
    rewrite bind_unfold, bind_unfold, (deref_tensor _ _ _ HX1). cbv beta iota.
    rewrite mret_unfold. cbv beta iota.
    rewrite bind_unfold, bind_unfold, (deref_tensor _ _ _ HY1). cbv beta iota.
    rewrite mret_unfold. cbv beta iota.
    rewrite bind_unfold. unfold get_blob. cbv beta iota. rewrite HY1.
    destruct (set_blob_lookup (rc_Y c)
      (BTensor {| dims := dims tY; meta := meta tY;
                  storage := embed (storage tX) (storage tY) c |}) s1)
      as (s' & -> & ? & Hk & Hc).
    exists s'. split_and!; auto.
Qed.

(** ** Basic facts: [RunOnDevice] when the checks pass *)

Lemma skip_random_init_length (op : TSNEOp) :
  bool_decide (InputSize op = 2) =
  bool_decide (length (input (operator_def op)) = 2%nat).
Proof. unfold InputSize. apply bool_decide_ext. lia. Qed.

(** The input checks of [RunOnDevice] read the workspace and leave it as it
    is; when they pass, what remains is the preparation of the output and
    the call. *)
Lemma RunOnDevice_pass (op : TSNEOp) (s : State) (N D : int) :
  Verify TSNE_schema (operator_def op) = true →
  preconditions op (blobs s) N D →
  ∃ x y tX s',
    input (operator_def op) !! 0%nat = Some x ∧
    output (operator_def op) = [y] ∧ x ≠ y ∧
    blobs s !! x = Some (BTensor tX) ∧ dims tX = [N; D] ∧ meta tX = TDouble ∧
    run_calls s' = run_calls s ++ [expected_call op x y N D] ∧
    (∀ k, k ≠ y → blobs s' !! k = blobs s !! k) ∧
    if perplexity_too_large (perplexity_ op) N
    then RunOnDevice op s = (Throw InvalidConfiguration, s') ∧
         blobs s' !! y =
           Some (BTensor {| dims := [N; dims_ op]; meta := TDouble;
                            storage := entry_storage (blobs s !! y) N (dims_ op) |})
    else RunOnDevice op s = (Ok true, s') ∧
         blobs s' !! y =
           Some (BTensor {| dims := [N; dims_ op]; meta := TDouble;
                            storage := embed (storage tX)
                                         (entry_storage (blobs s !! y) N (dims_ op))
                                         (expected_call op x y N D) |}).
Proof.
  intros HV [(x & tX & Hx & HX & HdX & HmX) Hsnd].
  apply Verify_TSNE_schema in HV as (x' & y & Hne & Ho & Hi).
  assert (x' = x) as -> by (destruct Hi as [Hi|Hi]; rewrite Hi in Hx; cbn in Hx; congruence).
  exists x, y, tX.
  (* the checks *)
  assert (Hchecks :
    RunOnDevice op s =
    (Y ← Output op 0;
     Resize Y [N; dims_ op];;
     X_data ← data TDouble x;
     Y_data ← mutable_data TDouble Y;
     tsne_run (expected_call op x Y_data N D);;
     mret true) s).
  { unfold RunOnDevice. cbv zeta.
    step_with (Input_tensor _ _ _ _ _ Hx HX).
    step_with (ndim_tensor _ _ _ HX). rewrite HdX. cbn [length].
    rewrite (bool_decide_eq_true_2 (Z.of_nat 2 = 2)) by reflexivity. enforce_ok.
    step_with (IsType_tensor TDouble _ _ _ HX).
    rewrite (bool_decide_eq_true_2 _ HmX). enforce_ok.
    step_with (dim32_tensor x 0 tX N s HX ltac:(rewrite HdX; reflexivity)).
    step_with (dim32_tensor x 1 tX D s HX ltac:(rewrite HdX; reflexivity)).
    rewrite bind_unfold.
    unfold expected_call. rewrite <- skip_random_init_length.
    destruct Hi as [Hi|Hi].
    - rewrite (bool_decide_eq_false_2 (InputSize op = 2))
        by (unfold InputSize; rewrite Hi; cbn; lia).
      rewrite mret_unfold. cbv beta iota. reflexivity.
    - rewrite (bool_decide_eq_true_2 (InputSize op = 2))
        by (unfold InputSize; rewrite Hi; reflexivity).
      destruct (Hsnd y ltac:(rewrite Hi; reflexivity)) as (tI & HI & HdI & HmI).
      assert (Hy : input (operator_def op) !! 1%nat = Some y) by (rewrite Hi; reflexivity).
      step_with (Input_tensor _ _ _ _ _ Hy HI).
      step_with (ndim_tensor _ _ _ HI). rewrite HdI. cbn [length].
      rewrite (bool_decide_eq_true_2 (Z.of_nat 2 = 2)) by reflexivity. enforce_ok.
      step_with (dim32_tensor y 0 tI N s HI ltac:(rewrite HdI; reflexivity)).
      rewrite (bool_decide_eq_true_2 (N = N)) by reflexivity. enforce_ok.
      step_with (dim32_tensor y 1 tI (dims_ op) s HI ltac:(rewrite HdI; reflexivity)).
      rewrite (bool_decide_eq_true_2 (dims_ op = dims_ op)) by reflexivity. enforce_ok.
      step_with (IsType_tensor TDouble _ _ _ HI).
      rewrite (bool_decide_eq_true_2 _ HmI).
      rewrite CAFFE_ENFORCE_true. cbv beta iota. reflexivity. }
  rewrite Hchecks. clear Hchecks.
  (* the output *)
  assert (Hy0 : output (operator_def op) !! 0%nat = Some y) by (rewrite Ho; reflexivity).
  destruct (Output_tensor op 0 y s Hy0) as (s1 & HO & HY1 & Hk1 & Hc1).
  destruct (Resize_tensor y [N; dims_ op] _ s1 HY1) as (s2 & HR & HY2 & Hk2 & Hc2).
  destruct (mutable_data_tensor y _ s2 HY2) as (s3 & HM & HY3 & Hk3 & Hc3).
  cbn [dims meta storage] in HY3.
  assert (HX3 : blobs s3 !! x = Some (BTensor tX))
    by (rewrite Hk3, Hk2, Hk1 by done; exact HX).
  destruct (tsne_run_spec (expected_call op x y N D) tX _ s3 HX3 HY3)
    as (s' & Hc' & Hk' & Hrun).
  exists s'. split_and!; auto.
  - rewrite Hc'. congruence.
  - intros k Hk. rewrite Hk', Hk3, Hk2, Hk1 by done. reflexivity.
  - rewrite bind_unfold, HO. cbv beta iota.
    rewrite bind_unfold, HR. cbv beta iota.
    rewrite bind_unfold. unfold data. rewrite mret_unfold. cbv beta iota.
    rewrite bind_unfold, HM. cbv beta iota.
    rewrite bind_unfold.
    cbn [expected_call rc_perplexity rc_N rc_Y dims meta storage] in Hrun.
    unfold entry_storage.
    destruct (perplexity_too_large (perplexity_ op) N);
      destruct Hrun as [-> HY']; cbv beta iota; split; auto.
Qed.

(** ** Basic facts: [RunOnDevice] when a check fails *)

Lemma RunOnDevice_fail (op : TSNEOp) (s : State) :
  Verify TSNE_schema (operator_def op) = true →
  ¬ (∃ N D, preconditions op (blobs s) N D) →
  ∃ msg, RunOnDevice op s = (Throw (EnforceNotMet msg), s).
Proof.
  intros HV Hnot.
  apply Verify_TSNE_schema in HV as (x & y & Hne & Ho & Hi).
  assert (Hx : input (operator_def op) !! 0%nat = Some x)
    by (destruct Hi as [Hi|Hi]; rewrite Hi; reflexivity).
  unfold RunOnDevice. cbv zeta.
  destruct (blobs s !! x) as [[tX|]|] eqn:HX;
    [| rewrite bind_unfold, (Input_no_tensor op 0 x s Hx) by (rewrite HX; congruence); eauto ..].
  step_with (Input_tensor _ _ _ _ _ Hx HX).
  step_with (ndim_tensor _ _ _ HX).
  destruct (dims tX) as [|N [|D [|d ds]]] eqn:HdX; cbn [length];
    try (rewrite (bool_decide_eq_false_2 (Z.of_nat _ = 2)) by lia; enforce_fails).
  rewrite (bool_decide_eq_true_2 (Z.of_nat 2 = 2)) by reflexivity. enforce_ok.
  step_with (IsType_tensor TDouble _ _ _ HX).
  destruct (decide (meta tX = TDouble)) as [HmX|HmX];
    [| rewrite (bool_decide_eq_false_2 _ HmX); enforce_fails].
  rewrite (bool_decide_eq_true_2 _ HmX). enforce_ok.
  step_with (dim32_tensor x 0 tX N s HX ltac:(rewrite HdX; reflexivity)).
  step_with (dim32_tensor x 1 tX D s HX ltac:(rewrite HdX; reflexivity)).
  assert (Hfirst : first_input_ok op (blobs s) N D) by (exists x, tX; auto).
  rewrite bind_unfold.
  destruct Hi as [Hi|Hi].
  { destruct Hnot. exists N, D. split; [exact Hfirst|].
    intros name Hname. rewrite Hi in Hname. discriminate. }
  rewrite (bool_decide_eq_true_2 (InputSize op = 2))
    by (unfold InputSize; rewrite Hi; reflexivity).
  assert (Hy : input (operator_def op) !! 1%nat = Some y) by (rewrite Hi; reflexivity).
  destruct (blobs s !! y) as [[tI|]|] eqn:HI;
    [| rewrite bind_unfold, (Input_no_tensor op 1 y s Hy) by (rewrite HI; congruence); eauto ..].
  step_with (Input_tensor _ _ _ _ _ Hy HI).
  step_with (ndim_tensor _ _ _ HI).
  destruct (dims tI) as [|N' [|D' [|d ds]]] eqn:HdI; cbn [length];
    try (rewrite (bool_decide_eq_false_2 (Z.of_nat _ = 2)) by lia; enforce_fails).
  rewrite (bool_decide_eq_true_2 (Z.of_nat 2 = 2)) by reflexivity. enforce_ok.
  step_with (dim32_tensor y 0 tI N' s HI ltac:(rewrite HdI; reflexivity)).
  destruct (decide (N' = N)) as [->|HN];
    [| rewrite (bool_decide_eq_false_2 _ HN); enforce_fails].
  rewrite (bool_decide_eq_true_2 (N = N)) by reflexivity. enforce_ok.
  step_with (dim32_tensor y 1 tI D' s HI ltac:(rewrite HdI; reflexivity)).
  destruct (decide (D' = dims_ op)) as [->|HD];
    [| rewrite (bool_decide_eq_false_2 _ HD); enforce_fails].
  rewrite (bool_decide_eq_true_2 (dims_ op = dims_ op)) by reflexivity. enforce_ok.
  step_with (IsType_tensor TDouble _ _ _ HI).
  destruct (decide (meta tI = TDouble)) as [HmI|HmI];
    [| rewrite (bool_decide_eq_false_2 _ HmI), CAFFE_ENFORCE_false; cbv beta iota; eauto].
  destruct Hnot. exists N, D. split; [exact Hfirst|].
  intros name Hname. rewrite Hy in Hname. injection Hname as <-.
  exists tI. auto.
Qed.

(** ** Basic facts: the two cases of an invocation *)

Lemma preconditions_dec (op : TSNEOp) (w : gmap string Blob) :
  (∃ N D, preconditions op w N D) ∨ ¬ (∃ N D, preconditions op w N D).
Proof.
  unfold preconditions, first_input_ok, second_input_ok.
  destruct (input (operator_def op) !! 0%nat) as [x|] eqn:Hx;
    [| right; intros (N & D & (x & t & ? & _) & _); discriminate].
  destruct (w !! x) as [[tX|]|] eqn:HX;
    [| right; intros (N & D & (x' & t & ? & ? & _) & _); congruence ..].
  destruct (dims tX) as [|N [|D [|d ds]]] eqn:HdX;
    try (right; intros (N' & D' & (x' & t & ? & ? & ? & _) & _); congruence).
  destruct (decide (meta tX = TDouble)) as [HmX|HmX];
    [| right; intros (N' & D' & (x' & t & ? & ? & ? & ?) & _); congruence].
  destruct (input (operator_def op) !! 1%nat) as [y|] eqn:Hy.
  - destruct (w !! y) as [[tI|]|] eqn:HI;
      [| right; intros (N' & D' & _ & H2);
         destruct (H2 y eq_refl) as (t & ? & _); congruence ..].
    destruct (decide (dims tI = [N; dims_ op])) as [HdI|HdI].
    + destruct (decide (meta tI = TDouble)) as [HmI|HmI].
      * left. exists N, D. split; [exists x, tX; auto|].
        intros name [= <-]. exists tI. auto.
      * right. intros (N' & D' & _ & H2).
        destruct (H2 y eq_refl) as (t & ? & _ & ?). congruence.
    + right. intros (N' & D' & (x' & t' & ? & ? & ? & _) & H2).
      destruct (H2 y eq_refl) as (t & ? & ? & _). congruence.
  - left. exists N, D. split; [exists x, tX; auto|]. intros name [=].
Qed.

Lemma constructed_inv (op : TSNEOp) :
  constructed op →
  Verify TSNE_schema (operator_def op) = true ∧ dims_ op > 0 ∧
  arg_value int (operator_def op) "dims" 0 = Some (dims_ op) ∧
  arg_value float (operator_def op) "perplexity" float_50 = Some (perplexity_ op) ∧
  arg_value float (operator_def op) "theta" float_0_5 = Some (theta_ op) ∧
  arg_value int (operator_def op) "random_seed" 0 = Some (random_seed_ op) ∧
  arg_value int (operator_def op) "max_iter" 1000 = Some (max_iter_ op).
Proof.
  intros [s0 H]. unfold CreateOperator in H. rewrite bind_unfold in H.
  destruct (Verify TSNE_schema (operator_def op)); [|discriminate].
  rewrite CAFFE_ENFORCE_true in H.
  apply TSNEOp_new_Ok in H as (_ & _ & ?). auto.
Qed.

(** The trace of an invocation grows by at most the one call. *)
Lemma RunOnDevice_trace (op : TSNEOp) (s : State) (c : RunCall) :
  Verify TSNE_schema (operator_def op) = true →
  run_calls (RunOnDevice op s).2 = run_calls s ++ [c] →
  ∃ N D x y,
    preconditions op (blobs s) N D ∧
    input (operator_def op) !! 0%nat = Some x ∧
    output (operator_def op) = [y] ∧
    c = expected_call op x y N D.
Proof.
  intros HV Hc.
  destruct (preconditions_dec op (blobs s)) as [(N & D & Hpre)|Hnot].
  - destruct (RunOnDevice_pass op s N D HV Hpre)
      as (x & y & tX & s' & Hx & Ho & _ & _ & _ & _ & Hc' & _ & Hrun).
    assert (Hs' : (RunOnDevice op s).2 = s')
      by (destruct (perplexity_too_large _ _); destruct Hrun as [-> _]; reflexivity).
    rewrite Hs', Hc' in Hc. apply app_inv_head in Hc. injection Hc as <-.
    exists N, D, x, y. auto.
  - destruct (RunOnDevice_fail op s HV Hnot) as (msg & Hr).
    rewrite Hr in Hc. cbn in Hc.
    apply (f_equal length) in Hc. rewrite length_app in Hc. cbn in Hc. lia.
Qed.

Lemma perplexity_too_large_ge (perplexity : double) (N : int) :
  perplexity_too_large perplexity N = true ↔ ieee_ge perplexity (inject_Z N / 3)%Q.
Proof.
  unfold perplexity_too_large, ieee_ge, ieee_ge_Q.
  destruct perplexity as [|[]|v]; cbn.
  - split; [discriminate|]. intros [?|(v & ? & _)]; discriminate.
  - split; [discriminate|]. intros [?|(v & ? & _)]; discriminate.
  - split; auto.
  - rewrite Qle_bool_iff. split.
    + intros H. right. exists v. auto.
    + intros [?|(v' & [= <-] & H)]; [discriminate|exact H].
Qed.

(** When the checks pass, the result and the final state, case by case. *)
Lemma RunOnDevice_result (op : TSNEOp) (s : State) (N D : int) :
  Verify TSNE_schema (operator_def op) = true →
  preconditions op (blobs s) N D →
  ∃ x y tX,
    input (operator_def op) !! 0%nat = Some x ∧
    output (operator_def op) = [y] ∧ x ≠ y ∧
    blobs s !! x = Some (BTensor tX) ∧
    run_calls (RunOnDevice op s).2 = run_calls s ++ [expected_call op x y N D] ∧
    (∀ k, k ≠ y → blobs (RunOnDevice op s).2 !! k = blobs s !! k) ∧
    (perplexity_too_large (perplexity_ op) N = true →
       (RunOnDevice op s).1 = Throw InvalidConfiguration ∧
       blobs (RunOnDevice op s).2 !! y =
         Some (BTensor {| dims := [N; dims_ op]; meta := TDouble;
                          storage := entry_storage (blobs s !! y) N (dims_ op) |})) ∧
    (perplexity_too_large (perplexity_ op) N = false →
       (RunOnDevice op s).1 = Ok true ∧
       blobs (RunOnDevice op s).2 !! y =
         Some (BTensor {| dims := [N; dims_ op]; meta := TDouble;
                          storage := embed (storage tX)
                                       (entry_storage (blobs s !! y) N (dims_ op))
                                       (expected_call op x y N D) |})).
Proof.
  intros HV Hpre.
  destruct (RunOnDevice_pass op s N D HV Hpre)
    as (x & y & tX & s' & Hx & Ho & Hne & HX & _ & _ & Hc & Hk & Hrun).
  exists x, y, tX.
  destruct (perplexity_too_large (perplexity_ op) N);
    destruct Hrun as [-> HY]; cbn [fst snd];
    split_and!; auto; discriminate.
Qed.

(** ** The properties of the specification *)

(** C1: for every invocation of a constructed operator that passes its
    precondition checks, with an input of shape (N, D), the output tensor
    after [RunOnDevice] has exactly N rows and [dims] columns. *)
Theorem output_shape_is_N_by_dims (op : TSNEOp) (s : State) (N D : int) :
  constructed op →
  preconditions op (blobs s) N D →
  ∃ y Y, output (operator_def op) !! 0%nat = Some y ∧
         blobs (RunOnDevice op s).2 !! y = Some (BTensor Y) ∧
         dims Y = [N; dims_ op].
Proof.
  intros Hop Hpre. apply constructed_inv in Hop as [HV _].
  destruct (RunOnDevice_result op s N D HV Hpre)
    as (x & y & tX & _ & Ho & _ & _ & _ & _ & Hbig & Hsmall).
  exists y. rewrite Ho.
  destruct (perplexity_too_large (perplexity_ op) N) eqn:Hp.
  - destruct (Hbig eq_refl) as [_ HY]. eauto.
  - destruct (Hsmall eq_refl) as [_ HY]. eauto.
Qed.

(** C2: [RunOnDevice] stops with an enforce error exactly when the shape and
    type preconditions do not hold (the first input is not a 2-dimensional
    tensor of doubles, or there is a second input that is not a
    2-dimensional tensor of doubles of shape (N, dims)); and then nothing
    has happened: no call to [run], no change to the workspace. *)
Theorem enforce_error_iff_preconditions_violated (op : TSNEOp) (s : State) :
  constructed op →
  ((∃ msg, (RunOnDevice op s).1 = Throw (EnforceNotMet msg)) ↔
   ¬ (∃ N D, preconditions op (blobs s) N D)) ∧
  (¬ (∃ N D, preconditions op (blobs s) N D) → (RunOnDevice op s).2 = s).
Proof.
  intros Hop. apply constructed_inv in Hop as [HV _].
  split; [split|].
  - intros [msg Hmsg] (N & D & Hpre).
    destruct (RunOnDevice_result op s N D HV Hpre)
      as (x & y & tX & _ & _ & _ & _ & _ & _ & Hbig & Hsmall).
    destruct (perplexity_too_large (perplexity_ op) N).
    + destruct (Hbig eq_refl) as [Hr _]. congruence.
    + destruct (Hsmall eq_refl) as [Hr _]. congruence.
  - intros Hnot. destruct (RunOnDevice_fail op s HV Hnot) as [msg ->]. eauto.
  - intros Hnot. destruct (RunOnDevice_fail op s HV Hnot) as [msg ->]. reflexivity.
Qed.

(** C3: the constructor fails with an enforce error whenever the [dims]
    argument is omitted or does not carry a positive integer, so that
    [dims_ > 0] in every operator it returns, where [dims_] is the integer
    the definition supplied. *)
Theorem constructor_requires_positive_dims (def : OperatorDef) (s : State) :
  ((arg def !! "dims" = None ∨
    ∃ a, arg def !! "dims" = Some a ∧ ∀ z, arg_i a = Some z → z ≤ 0) →
   ∃ msg, TSNEOp_new def s = (Throw (EnforceNotMet msg), s)) ∧
  (∀ op s', TSNEOp_new def s = (Ok op, s') →
     dims_ op > 0 ∧
     ∃ a, arg def !! "dims" = Some a ∧ arg_i a = Some (dims_ op)).
Proof.
  split.
  - intros Hdims.
    destruct (TSNEOp_new def s) as [[op|e] s'] eqn:Hnew.
    + apply TSNEOp_new_Ok in Hnew as (_ & _ & Hpos & Hd & _).
      unfold arg_value in Hd.
      destruct Hdims as [Hnone | (a & Ha & Hz)].
      * rewrite Hnone in Hd. injection Hd as Hd. lia.
      * rewrite Ha in Hd. apply Hz in Hd. lia.
    + apply TSNEOp_new_Throw in Hnew as [-> [msg ->]]. eauto.
  - intros op s' Hnew.
    apply TSNEOp_new_Ok in Hnew as (_ & _ & Hpos & Hd & _).
    split; [exact Hpos|].
    unfold arg_value in Hd.
    destruct (arg def !! "dims") as [a|]; [eauto|].
    injection Hd as Hd. lia.
Qed.

(** C5: whenever the shape and type preconditions pass, [RunOnDevice]
    makes a call to [run], and the [skip_random_init] argument of that call
    is true exactly when the operator has two inputs and false exactly when
    it has one; it depends on nothing else, in particular on no argument of
    the operator definition. *)
Theorem skip_random_init_is_input_count (op : TSNEOp) (s : State) (N D : int) :
  constructed op →
  preconditions op (blobs s) N D →
  ∃ c,
    run_calls (RunOnDevice op s).2 = run_calls s ++ [c] ∧
    (rc_skip_random_init c = true ↔ length (input (operator_def op)) = 2%nat) ∧
    (rc_skip_random_init c = false ↔ length (input (operator_def op)) = 1%nat).
Proof.
  intros Hop Hpre. apply constructed_inv in Hop as [HV _].
  destruct (RunOnDevice_result op s N D HV Hpre)
    as (x & y & tX & _ & _ & _ & _ & Hc & _).
  exists (expected_call op x y N D). split; [exact Hc|].
  apply Verify_TSNE_schema in HV as (x' & y' & _ & _ & [Hi|Hi]);
    cbn [expected_call rc_skip_random_init]; rewrite Hi; cbn [length].
  - rewrite (bool_decide_eq_false_2 (1%nat = 2%nat)) by lia. split; split; auto; lia.
  - rewrite (bool_decide_eq_true_2 (2%nat = 2%nat)) by lia. split; split; auto; lia.
Qed.


(** C7: for an operator with two inputs the schema makes the second input
    and the output one blob (a definition that names them differently is
    refused), the pointer [run] receives for the output designates that
    blob, and after a completed run the blob holds the embedding, computed
    from the initial embedding it held. *)
Theorem second_input_is_the_output (op : TSNEOp) (s : State) (N D : int) :
  (∀ def s0, length (input def) = 2%nat →
     input def !! 1%nat ≠ output def !! 0%nat →
     ∃ msg, CreateOperator def s0 = (Throw (EnforceNotMet msg), s0)) ∧
  (constructed op →
   length (input (operator_def op)) = 2%nat →
   ∃ init,
     input (operator_def op) !! 1%nat = Some init ∧
     output (operator_def op) !! 0%nat = Some init ∧
     (preconditions op (blobs s) N D →
      ∃ x tX tI,
        input (operator_def op) !! 0%nat = Some x ∧
        blobs s !! x = Some (BTensor tX) ∧
        blobs s !! init = Some (BTensor tI) ∧
        run_calls (RunOnDevice op s).2 = run_calls s ++ [expected_call op x init N D] ∧
        (Z.of_nat (length (storage tI)) = numel [N; dims_ op] →
         entry_storage (blobs s !! init) N (dims_ op) = storage tI) ∧
        ((RunOnDevice op s).1 = Ok true →
         blobs (RunOnDevice op s).2 !! init =
           Some (BTensor {| dims := [N; dims_ op]; meta := TDouble;
                            storage := embed (storage tX)
                                         (entry_storage (blobs s !! init) N (dims_ op))
                                         (expected_call op x init N D) |})))).
Proof.
  split.
  - intros def s0 Hlen Hne. unfold CreateOperator. rewrite bind_unfold.
    destruct (Verify TSNE_schema def) eqn:HV; [|rewrite CAFFE_ENFORCE_false; eauto].
    apply Verify_TSNE_schema in HV as (x & y & _ & Ho & [Hi|Hi]);
      rewrite Hi, Ho in *; [discriminate|]. destruct Hne. reflexivity.
  - intros Hop Hlen. apply constructed_inv in Hop as [HV _].
    pose proof HV as HV'.
    apply Verify_TSNE_schema in HV' as (x & y & Hne & Ho & [Hi|Hi]);
      rewrite Hi in Hlen; [discriminate|].
    exists y. rewrite Hi, Ho. split_and!; [reflexivity ..|].
    intros Hpre.
    destruct (RunOnDevice_result op s N D HV Hpre)
      as (x' & y' & tX & Hx & Ho' & _ & HX & Hc & _ & Hbig & Hsmall).
    assert (y' = y) as -> by congruence.
    assert (x' = x) as -> by (rewrite Hi in Hx; cbn in Hx; congruence).
    destruct Hpre as [_ Hsnd].
    destruct (Hsnd y ltac:(rewrite Hi; reflexivity)) as (tI & HI & HdI & HmI).
    exists x, tX, tI. split_and!; auto.
    + intros Hlen'. unfold entry_storage. rewrite HI.
      rewrite (bool_decide_eq_true_2 _ HmI), (bool_decide_eq_true_2 _ Hlen').
      reflexivity.
    + intros Hr.
      destruct (perplexity_too_large (perplexity_ op) N) eqn:Hp.
      * destruct (Hbig eq_refl) as [Hr' _]. congruence.
      * apply Hsmall. reflexivity.
Qed.

(** C8: the blob of the first input is the same after [RunOnDevice] as
    before, whatever the outcome: the adapter writes only to the output
    blob, which the schema keeps apart from the first input, and [run]
    reads the input matrix without writing to it. *)
Theorem first_input_unchanged (op : TSNEOp) (s : State) (x : string) :
  constructed op →
  input (operator_def op) !! 0%nat = Some x →
  blobs (RunOnDevice op s).2 !! x = blobs s !! x.
Proof.
  intros Hop Hx. apply constructed_inv in Hop as [HV _].
  destruct (preconditions_dec op (blobs s)) as [(N & D & Hpre)|Hnot].
  - destruct (RunOnDevice_result op s N D HV Hpre)
      as (x' & y & tX & Hx' & _ & Hne & _ & _ & Hk & _).
    assert (x' = x) as -> by congruence.
    apply Hk. exact Hne.
  - destruct (RunOnDevice_fail op s HV Hnot) as [msg ->]. reflexivity.
Qed.

(** C9, as amended: when the shape and type preconditions pass,
    [RunOnDevice] calls [run] once; it returns true when [run] completes,
    which it does unless the perplexity is at least N/3, in which case the
    signal of [run] is the outcome; [RunOnDevice] never returns false. *)
Theorem returns_true_unless_run_signals (op : TSNEOp) (s : State) (N D : int) :
  constructed op →
  preconditions op (blobs s) N D →
  (∃ c, run_calls (RunOnDevice op s).2 = run_calls s ++ [c]) ∧
  (¬ ieee_ge (perplexity_ op) (inject_Z N / 3)%Q → (RunOnDevice op s).1 = Ok true) ∧
  (ieee_ge (perplexity_ op) (inject_Z N / 3)%Q →
   (RunOnDevice op s).1 = Throw InvalidConfiguration) ∧
  (RunOnDevice op s).1 ≠ Ok false.
Proof.
  intros Hop Hpre. apply constructed_inv in Hop as [HV _].
  destruct (RunOnDevice_result op s N D HV Hpre)
    as (x & y & tX & _ & _ & _ & _ & Hc & _ & Hbig & Hsmall).
  rewrite <- perplexity_too_large_ge.
  destruct (perplexity_too_large (perplexity_ op) N).
  - destruct (Hbig eq_refl) as [-> _].
    split_and!; eauto; try discriminate. intros []; reflexivity.
  - destruct (Hsmall eq_refl) as [-> _].
    split_and!; eauto; discriminate.
Qed.

(** C10: the constructor accepts any perplexity, theta, random seed and
    iteration count (only [dims] must be positive), and the call to [run]
    carries exactly the values the definition gives, without clamping. *)
Theorem arguments_forwarded_unchecked
    (def : OperatorDef) (s : State) (d : int) (p t : float) (r m : int) :
  Verify TSNE_schema def = true →
  arg_value int def "dims" 0 = Some d → d > 0 →
  arg_value float def "perplexity" float_50 = Some p →
  arg_value float def "theta" float_0_5 = Some t →
  arg_value int def "random_seed" 0 = Some r →
  arg_value int def "max_iter" 1000 = Some m →
  ∃ op, CreateOperator def s = (Ok op, s) ∧
        ∀ s1 N D, preconditions op (blobs s1) N D →
          ∃ c, run_calls (RunOnDevice op s1).2 = run_calls s1 ++ [c] ∧
               rc_no_dims c = d ∧
               rc_perplexity c = p ∧ rc_theta c = t ∧
               rc_rand_seed c = r ∧ rc_max_iter c = m.
Proof.
  intros HV Hd Hpos Hp Ht Hr Hm.
  exists {| operator_def := def; dims_ := d; perplexity_ := p; theta_ := t;
            random_seed_ := r; max_iter_ := m |}.
  split.
  - unfold CreateOperator. rewrite bind_unfold, HV, CAFFE_ENFORCE_true.
    rewrite TSNEOp_new_unfold, Hd, Hp, Ht, Hr, Hm.
    rewrite (bool_decide_eq_true_2 _ Hpos). reflexivity.
  - intros s1 N D Hpre.
    set (op := {| operator_def := def; dims_ := d; perplexity_ := p; theta_ := t;
                  random_seed_ := r; max_iter_ := m |}) in *.
    destruct (RunOnDevice_result op s1 N D HV Hpre)
      as (x & y & tX & _ & _ & _ & _ & Hc & _).
    exists (expected_call op x y N D). split; [exact Hc|].
    split_and!; reflexivity.
Qed.

(** When the perplexity is too large the final state is the initial one
    with the output blob reshaped and the call noted; the numerical core
    does not appear in it. *)
Lemma RunOnDevice_too_large (op : TSNEOp) (s : State) (N D : int) :
  Verify TSNE_schema (operator_def op) = true →
  preconditions op (blobs s) N D →
  perplexity_too_large (perplexity_ op) N = true →
  ∃ x y,
    input (operator_def op) !! 0%nat = Some x ∧
    output (operator_def op) = [y] ∧
    RunOnDevice op s =
    (Throw InvalidConfiguration,
     {| blobs := <[y := BTensor {| dims := [N; dims_ op]; meta := TDouble;
                                   storage := entry_storage (blobs s !! y) N (dims_ op) |}]>
                   (blobs s);
        run_calls := run_calls s ++ [expected_call op x y N D] |}).
Proof.
  intros HV Hpre Hp.
  destruct (RunOnDevice_result op s N D HV Hpre)
    as (x & y & tX & Hx & Ho & _ & _ & Hc & Hk & Hbig & _).
  destruct (Hbig Hp) as [Hr HY]. exists x, y. split_and!; auto.
  destruct (RunOnDevice op s) as [r [b cs]]. cbn in *. subst r cs.
  do 2 f_equal. apply map_eq. intros k.
  destruct (decide (k = y)) as [->|Hne].
  - rewrite HY, lookup_insert_eq. reflexivity.
  - rewrite Hk, lookup_insert_ne by done. reflexivity.
Qed.

End TSNE.

(** C4: for every invocation of a constructed operator whose first input
    has N rows and whose perplexity is at least N/3, the operation fails
    instead of running the embedding computation: the outcome is an error,
    the invalid-configuration signal of [run] when the shape and type
    preconditions pass, and the final state is the same whatever the
    numerical core would compute. *)
Theorem too_large_perplexity_fails_fast
    (uninitialized : nat → list double)
    (embed : list double → list double → RunCall → list double)
    (op : TSNEOp) (s : State) (x : string) (tX : Tensor) (N D : int) :
  constructed op →
  input (operator_def op) !! 0%nat = Some x →
  blobs s !! x = Some (BTensor tX) →
  dims tX = [N; D] →
  ieee_ge (perplexity_ op) (inject_Z N / 3)%Q →
  (∃ e, (RunOnDevice uninitialized embed op s).1 = Throw e) ∧
  (preconditions op (blobs s) N D →
   (RunOnDevice uninitialized embed op s).1 = Throw InvalidConfiguration) ∧
  (∀ embed', (RunOnDevice uninitialized embed' op s).2 =
             (RunOnDevice uninitialized embed op s).2).
Proof.
  intros Hop Hx HX HdX Hge. apply constructed_inv in Hop as [HV _].
  apply perplexity_too_large_ge in Hge.
  destruct (preconditions_dec op (blobs s)) as [(N' & D' & Hpre)|Hnot].
  - assert (N' = N ∧ D' = D) as [-> ->].
    { destruct Hpre as [(x' & t' & ? & ? & ? & _) _]. simplify_eq.
      split; congruence. }
    assert (Hall : ∀ e, RunOnDevice uninitialized e op s =
                        RunOnDevice uninitialized embed op s).
    { intros e.
      destruct (RunOnDevice_too_large uninitialized e op s N D HV Hpre Hge)
        as (x1 & y1 & Hx1 & Ho1 & ->).
      destruct (RunOnDevice_too_large uninitialized embed op s N D HV Hpre Hge)
        as (x2 & y2 & Hx2 & Ho2 & ->).
      assert (y2 = y1) as -> by congruence.
      assert (x2 = x1) as -> by congruence.
      reflexivity. }
    destruct (RunOnDevice_too_large uninitialized embed op s N D HV Hpre Hge)
      as (x1 & y1 & _ & _ & Hr).
    split_and!.
    + rewrite Hr. eauto.
    + intros _. rewrite Hr. reflexivity.
    + intros e. rewrite Hall. reflexivity.
  - split_and!.
    + destruct (RunOnDevice_fail uninitialized embed op s HV Hnot) as [msg ->]. eauto.
    + intros Hpre. destruct Hnot. eauto.
    + intros e.
      destruct (RunOnDevice_fail uninitialized e op s HV Hnot) as [msg1 ->].
      destruct (RunOnDevice_fail uninitialized embed op s HV Hnot) as [msg2 ->].
      reflexivity.
Qed.

(** ** The properties on the sample operators *)

Ltac by_computation := vm_compute; reflexivity.

(** One input: the output blob is created with shape (4, 2) and filled. *)
Example run_one_input :
  RunOnDevice sample_uninitialized sample_embed op_one_input state_X =
  (Ok true,
   {| blobs := {[ "X" := BTensor sample_X;
                  "Y" := BTensor {| dims := [4; 2]; meta := TDouble;
                                    storage := repeat (Fin (1 # 1)) 8 |} ]};
      run_calls := [ {| rc_X := "X"; rc_N := 4; rc_D := 3; rc_Y := "Y";
                        rc_no_dims := 2; rc_perplexity := Fin (1 # 1);
                        rc_theta := Fin (1 # 2); rc_rand_seed := 0;
                        rc_skip_random_init := false; rc_max_iter := 1000 |} ] |}).
Proof. by_computation. Qed.

(** Two inputs: the same blob is the initial embedding and the result. *)
Example run_two_inputs :
  RunOnDevice sample_uninitialized sample_embed op_two_inputs state_XY =
  (Ok true,
   {| blobs := {[ "X" := BTensor sample_X;
                  "Y" := BTensor {| dims := [4; 2]; meta := TDouble;
                                    storage := repeat (Fin (1 # 1)) 8 |} ]};
      run_calls := [ {| rc_X := "X"; rc_N := 4; rc_D := 3; rc_Y := "Y";
                        rc_no_dims := 2; rc_perplexity := Fin (1 # 1);
                        rc_theta := Fin (1 # 2); rc_rand_seed := 0;
                        rc_skip_random_init := true; rc_max_iter := 1000 |} ] |}).
Proof. by_computation. Qed.

(** A vector of floats as input: the first check stops the operator. *)
Example run_bad_input :
  RunOnDevice sample_uninitialized sample_embed op_one_input state_bad =
  (Throw (EnforceNotMet "TSNE expects a 2-dimensional tensor as input."), state_bad).
Proof. by_computation. Qed.

(** Two inputs without the second blob in the workspace. *)
Example run_missing_init :
  (RunOnDevice sample_uninitialized sample_embed op_two_inputs state_X).1 =
  Throw (EnforceNotMet "wrong type for the Blob instance.").
Proof. by_computation. Qed.

(** The constructor on a definition without [dims]. *)
Example construct_no_dims :
  TSNEOp_new def_no_dims state_X =
  (Throw (EnforceNotMet "You should specify the number of output dimensions."), state_X).
Proof. by_computation. Qed.

Lemma op_one_input_constructed : constructed op_one_input.
Proof. exists state_X. by_computation. Qed.

Lemma op_two_inputs_constructed : constructed op_two_inputs.
Proof. exists state_X. by_computation. Qed.

Lemma op_defaults_constructed : constructed op_defaults.
Proof. exists state_X. by_computation. Qed.

Lemma one_input_preconditions : preconditions op_one_input (blobs state_X) 4 3.
Proof.
  split.
  - exists "X", sample_X. split_and!; by_computation.
  - intros name Hname. vm_compute in Hname. discriminate.
Qed.

Lemma defaults_preconditions : preconditions op_defaults (blobs state_X) 4 3.
Proof.
  split.
  - exists "X", sample_X. split_and!; by_computation.
  - intros name Hname. vm_compute in Hname. discriminate.
Qed.

Lemma two_inputs_preconditions : preconditions op_two_inputs (blobs state_XY) 4 3.
Proof.
  split.
  - exists "X", sample_X. split_and!; by_computation.
  - intros name Hname. vm_compute in Hname. injection Hname as <-.
    exists sample_init. split_and!; by_computation.
Qed.

Lemma bad_input_no_preconditions :
  ¬ (∃ N D, preconditions op_one_input (blobs state_bad) N D).
Proof.
  intros (N & D & (x & t & Hx & Hb & Hd & _) & _).
  vm_compute in Hx. injection Hx as <-.
  vm_compute in Hb. injection Hb as <-.
  discriminate.
Qed.

Lemma output_shape_is_N_by_dims_witness :
  constructed op_one_input ∧
  preconditions op_one_input (blobs state_X) 4 3 ∧
  ∃ y Y, output (operator_def op_one_input) !! 0%nat = Some y ∧
         blobs (RunOnDevice sample_uninitialized sample_embed op_one_input state_X).2 !! y
           = Some (BTensor Y) ∧
         dims Y = [4; dims_ op_one_input].
Proof.
  split_and!.
  - exact op_one_input_constructed.
  - exact one_input_preconditions.
  - apply (output_shape_is_N_by_dims sample_uninitialized sample_embed
             op_one_input state_X 4 3).
    + exact op_one_input_constructed.
    + exact one_input_preconditions.
Defined.

Lemma enforce_error_iff_preconditions_violated_witness :
  constructed op_one_input ∧
  ¬ (∃ N D, preconditions op_one_input (blobs state_bad) N D) ∧
  (∃ msg, (RunOnDevice sample_uninitialized sample_embed op_one_input state_bad).1
          = Throw (EnforceNotMet msg)) ∧
  (RunOnDevice sample_uninitialized sample_embed op_one_input state_bad).2 = state_bad.
Proof.
  pose proof (enforce_error_iff_preconditions_violated sample_uninitialized
                sample_embed op_one_input state_bad op_one_input_constructed)
    as [Hiff Hstate].
  split_and!.
  - exact op_one_input_constructed.
  - exact bad_input_no_preconditions.
  - apply Hiff. exact bad_input_no_preconditions.
  - apply Hstate. exact bad_input_no_preconditions.
Defined.

Lemma constructor_requires_positive_dims_witness :
  arg def_no_dims !! "dims" = None ∧
  (∃ msg, TSNEOp_new def_no_dims state_X = (Throw (EnforceNotMet msg), state_X)) ∧
  TSNEOp_new def_one_input state_X = (Ok op_one_input, state_X) ∧
  dims_ op_one_input > 0.
Proof.
  split_and!.
  - by_computation.
  - apply (proj1 (constructor_requires_positive_dims def_no_dims state_X)).
    left. by_computation.
  - by_computation.
  - apply (proj2 (constructor_requires_positive_dims def_one_input state_X)
             op_one_input state_X).
    by_computation.
Defined.

Lemma too_large_perplexity_fails_fast_witness :
  constructed op_defaults ∧
  ieee_ge (perplexity_ op_defaults) (inject_Z 4 / 3)%Q ∧
  preconditions op_defaults (blobs state_X) 4 3 ∧
  (RunOnDevice sample_uninitialized sample_embed op_defaults state_X).1
    = Throw InvalidConfiguration.
Proof.
  assert (Hge : ieee_ge (perplexity_ op_defaults) (inject_Z 4 / 3)%Q).
  { right. exists (50 # 1)%Q. split; [reflexivity|]. vm_compute. discriminate. }
  split_and!.
  - exact op_defaults_constructed.
  - exact Hge.
  - exact defaults_preconditions.
  - apply (too_large_perplexity_fails_fast sample_uninitialized sample_embed
             op_defaults state_X "X" sample_X 4 3).
    + exact op_defaults_constructed.
    + by_computation.
    + by_computation.
    + by_computation.
    + exact Hge.
    + exact defaults_preconditions.
Defined.

Lemma skip_random_init_is_input_count_witness :
  (constructed op_two_inputs ∧
   preconditions op_two_inputs (blobs state_XY) 4 3 ∧
   ∃ c, run_calls (RunOnDevice sample_uninitialized sample_embed
                     op_two_inputs state_XY).2
          = run_calls state_XY ++ [c] ∧
        rc_skip_random_init c = true) ∧
  (constructed op_one_input ∧
   preconditions op_one_input (blobs state_X) 4 3 ∧
   ∃ c, run_calls (RunOnDevice sample_uninitialized sample_embed
                     op_one_input state_X).2
          = run_calls state_X ++ [c] ∧
        rc_skip_random_init c = false).
Proof.
  split; split_and!.
  - exact op_two_inputs_constructed.
  - exact two_inputs_preconditions.
  - destruct (skip_random_init_is_input_count sample_uninitialized sample_embed
                op_two_inputs state_XY 4 3
                op_two_inputs_constructed two_inputs_preconditions)
      as (c & Hc & [_ Htrue] & _).
    exists c. split; [exact Hc|]. apply Htrue. by_computation.
  - exact op_one_input_constructed.
  - exact one_input_preconditions.
  - destruct (skip_random_init_is_input_count sample_uninitialized sample_embed
                op_one_input state_X 4 3
                op_one_input_constructed one_input_preconditions)
      as (c & Hc & _ & [_ Hfalse]).
    exists c. split; [exact Hc|]. apply Hfalse. by_computation.
Defined.


Lemma second_input_is_the_output_witness :
  (∃ msg, CreateOperator def_not_in_place state_XY
          = (Throw (EnforceNotMet msg), state_XY)) ∧
  constructed op_two_inputs ∧
  preconditions op_two_inputs (blobs state_XY) 4 3 ∧
  (RunOnDevice sample_uninitialized sample_embed op_two_inputs state_XY).1 = Ok true ∧
  ∃ init,
    input (operator_def op_two_inputs) !! 1%nat = Some init ∧
    output (operator_def op_two_inputs) !! 0%nat = Some init ∧
    blobs (RunOnDevice sample_uninitialized sample_embed op_two_inputs state_XY).2 !! init
      = Some (BTensor {| dims := [4; 2]; meta := TDouble;
                         storage := sample_embed (storage sample_X) (storage sample_init)
                                      (expected_call op_two_inputs "X" init 4 3) |}).
Proof.
  pose proof (second_input_is_the_output sample_uninitialized sample_embed
                op_two_inputs state_XY 4 3) as [Hrefuse Hinplace].
  split_and!.
  - apply Hrefuse.
    + by_computation.
    + vm_compute. discriminate.
  - exact op_two_inputs_constructed.
  - exact two_inputs_preconditions.
  - by_computation.
  - destruct (Hinplace op_two_inputs_constructed ltac:(by_computation))
      as (init & Hi & Ho & Hrun).
    exists init. split_and!; [exact Hi | exact Ho |].
    vm_compute in Hi. injection Hi as <-.
    by_computation.
Defined.

Lemma first_input_unchanged_witness :
  constructed op_two_inputs ∧
  input (operator_def op_two_inputs) !! 0%nat = Some "X" ∧
  blobs (RunOnDevice sample_uninitialized sample_embed op_two_inputs state_XY).2 !! "X"
    = blobs state_XY !! "X".
Proof.
  split_and!.
  - exact op_two_inputs_constructed.
  - by_computation.
  - apply (first_input_unchanged sample_uninitialized sample_embed
             op_two_inputs state_XY "X").
    + exact op_two_inputs_constructed.
    + by_computation.
Defined.

Lemma returns_true_unless_run_signals_witness :
  constructed op_one_input ∧
  preconditions op_one_input (blobs state_X) 4 3 ∧
  ¬ ieee_ge (perplexity_ op_one_input) (inject_Z 4 / 3)%Q ∧
  (RunOnDevice sample_uninitialized sample_embed op_one_input state_X).1 = Ok true.
Proof.
  assert (Hlt : ¬ ieee_ge (perplexity_ op_one_input) (inject_Z 4 / 3)%Q).
  { intros [H|(v & Hv & Hle)]; [discriminate|].
    injection Hv as <-. vm_compute in Hle. apply Hle. reflexivity. }
  split_and!.
  - exact op_one_input_constructed.
  - exact one_input_preconditions.
  - exact Hlt.
  - apply (returns_true_unless_run_signals sample_uninitialized sample_embed
             op_one_input state_X 4 3).
    + exact op_one_input_constructed.
    + exact one_input_preconditions.
    + exact Hlt.
Defined.

(** C9, as stated, fails: with the default perplexity of 50 and four input
    points the preconditions pass and [RunOnDevice] does not return true. *)
Lemma returns_true_unconditionally_counterexample :
  ¬ (∀ (uninitialized : nat → list double)
       (embed : list double → list double → RunCall → list double)
       (op : TSNEOp) (s : State) (N D : int),
       constructed op →
       preconditions op (blobs s) N D →
       (RunOnDevice uninitialized embed op s).1 = Ok true).
Proof.
  intros H.
  specialize (H sample_uninitialized sample_embed op_defaults state_X 4 3
                op_defaults_constructed defaults_preconditions).
  vm_compute in H. discriminate.
Qed.

Lemma arguments_forwarded_unchecked_witness :
  Verify TSNE_schema def_odd_values = true ∧
  arg_value int def_odd_values "dims" 0 = Some 2 ∧
  arg_value float def_odd_values "perplexity" float_50 = Some (Fin (-3 # 1)) ∧
  arg_value float def_odd_values "theta" float_0_5 = Some (Fin (7 # 1)) ∧
  arg_value int def_odd_values "random_seed" 0 = Some (-1) ∧
  arg_value int def_odd_values "max_iter" 1000 = Some (-5) ∧
  ∃ op, CreateOperator def_odd_values state_X = (Ok op, state_X) ∧
        preconditions op (blobs state_X) 4 3 ∧
        ∃ c, run_calls (RunOnDevice sample_uninitialized sample_embed op state_X).2
               = run_calls state_X ++ [c] ∧
             rc_no_dims c = 2 ∧
             rc_perplexity c = Fin (-3 # 1) ∧ rc_theta c = Fin (7 # 1) ∧
             rc_rand_seed c = -1 ∧ rc_max_iter c = -5.
Proof.
  assert (HV : Verify TSNE_schema def_odd_values = true) by by_computation.
  assert (Hd : arg_value int def_odd_values "dims" 0 = Some 2) by by_computation.
  assert (Hp : arg_value float def_odd_values "perplexity" float_50 = Some (Fin (-3 # 1)))
    by by_computation.
  assert (Ht : arg_value float def_odd_values "theta" float_0_5 = Some (Fin (7 # 1)))
    by by_computation.
  assert (Hr : arg_value int def_odd_values "random_seed" 0 = Some (-1)) by by_computation.
  assert (Hm : arg_value int def_odd_values "max_iter" 1000 = Some (-5)) by by_computation.
  split_and!; [exact HV | exact Hd | exact Hp | exact Ht | exact Hr | exact Hm |].
  destruct (arguments_forwarded_unchecked sample_uninitialized sample_embed
              def_odd_values state_X 2 (Fin (-3 # 1)) (Fin (7 # 1)) (-1) (-5)
              HV Hd ltac:(lia) Hp Ht Hr Hm)
    as (op & Hop & Hcall).
  exists op.
  assert (Hpre : preconditions op (blobs state_X) 4 3).
  { vm_compute in Hop. injection Hop as <-.
    split.
    - exists "X", sample_X. split_and!; by_computation.
    - intros name Hname. vm_compute in Hname. discriminate. }
  split_and!; [exact Hop | exact Hpre | exact (Hcall state_X 4 3 Hpre)].
Defined.

(** ** Further properties of the adapter *)

Section Adapter.

Variable uninitialized : nat → list double.
Variable embed : list double → list double → RunCall → list double.

Lemma bind_Ok_inv {A B : Type} (m : M A) (f : A → M B) (s s' : State) (b : B) :
  (m ≫= f) s = (Ok b, s') →
  ∃ a s1, m s = (Ok a, s1) ∧ f a s1 = (Ok b, s').
Proof.
  rewrite bind_unfold. destruct (m s) as [[a|e] s1]; [eauto | discriminate].
Qed.

(** X1: the schema admits one or two inputs and exactly one output: an
    operator definition with any other number of inputs or outputs is
    refused at creation, and the state is left as it was. *)
Theorem creation_refuses_wrong_arity (def : OperatorDef) (s : State) :
  (length (input def) ≠ 1%nat ∧ length (input def) ≠ 2%nat) ∨
  length (output def) ≠ 1%nat →
  ∃ msg, CreateOperator def s = (Throw (EnforceNotMet msg), s).
Proof.
  intros Harity. unfold CreateOperator. rewrite bind_unfold.
  assert (HV : Verify TSNE_schema def = false).
  { unfold Verify.
    change (min_input TSNE_schema) with 1%Z. change (max_input TSNE_schema) with 2%Z.
    change (min_output TSNE_schema) with 1%Z. change (max_output TSNE_schema) with 1%Z.
    destruct Harity as [[H1 H2]|H].
    - rewrite (bool_decide_eq_false_2
                 (1 ≤ Z.of_nat (length (input def)) ≤ 2)%Z) by lia.
      reflexivity.
    - rewrite (bool_decide_eq_false_2
                 (1 ≤ Z.of_nat (length (output def)) ≤ 1)%Z) by lia.
      rewrite andb_false_r. reflexivity. }
  rewrite HV, CAFFE_ENFORCE_false. eauto.
Qed.

(** X2: a first input that is a tensor but not a 2-dimensional one stops
    [RunOnDevice] at the first check, with the message of that check,
    whatever its element type and whatever the other inputs are; nothing
    has been done by then. *)
Theorem non_2d_input_is_reported_first
    (op : TSNEOp) (s : State) (x : string) (tX : Tensor) :
  input (operator_def op) !! 0%nat = Some x →
  blobs s !! x = Some (BTensor tX) →
  length (dims tX) ≠ 2%nat →
  RunOnDevice uninitialized embed op s =
  (Throw (EnforceNotMet "TSNE expects a 2-dimensional tensor as input."), s).
Proof.
  intros Hx HX Hlen. unfold RunOnDevice. cbv zeta.
  rewrite bind_unfold, (Input_tensor _ _ _ _ _ Hx HX). cbv beta iota.
  rewrite bind_unfold, (ndim_tensor _ _ _ HX). cbv beta iota.
  rewrite (bool_decide_eq_false_2 (Z.of_nat (length (dims tX)) = 2)) by lia.
  rewrite bind_unfold, CAFFE_ENFORCE_false. reflexivity.
Qed.

(** X3: a 2-dimensional first input whose element type is not double stops
    [RunOnDevice] at the second check, with the message of that check,
    before any other input is looked at. *)
Theorem non_double_input_is_reported
    (op : TSNEOp) (s : State) (x : string) (tX : Tensor) :
  input (operator_def op) !! 0%nat = Some x →
  blobs s !! x = Some (BTensor tX) →
  length (dims tX) = 2%nat →
  meta tX ≠ TDouble →
  RunOnDevice uninitialized embed op s =
  (Throw (EnforceNotMet "TSNE expects the input to be of data type double."), s).
Proof.
  intros Hx HX Hlen Hmeta. unfold RunOnDevice. cbv zeta.
  rewrite bind_unfold, (Input_tensor _ _ _ _ _ Hx HX). cbv beta iota.
  rewrite bind_unfold, (ndim_tensor _ _ _ HX). cbv beta iota.
  rewrite (bool_decide_eq_true_2 (Z.of_nat (length (dims tX)) = 2)) by lia.
  rewrite bind_unfold, CAFFE_ENFORCE_true. cbv beta iota.
  rewrite bind_unfold, (IsType_tensor TDouble _ _ _ HX). cbv beta iota.
  rewrite (bool_decide_eq_false_2 _ Hmeta).
  rewrite bind_unfold, CAFFE_ENFORCE_false. reflexivity.
Qed.

(** X4: the call that [RunOnDevice] makes to [run] describes the inputs
    truthfully: its X pointer designates the blob of the first input, its N
    and D are the two extents of that tensor, its Y pointer designates the
    output blob, a blob other than the first input, and its number of
    output dimensions is the operator's [dims_]. *)
Theorem run_call_describes_the_input (op : TSNEOp) (s : State) (c : RunCall) :
  constructed op →
  run_calls (RunOnDevice uninitialized embed op s).2 = run_calls s ++ [c] →
  ∃ tX,
    input (operator_def op) !! 0%nat = Some (rc_X c) ∧
    blobs s !! rc_X c = Some (BTensor tX) ∧
    dims tX = [rc_N c; rc_D c] ∧
    output (operator_def op) !! 0%nat = Some (rc_Y c) ∧
    rc_X c ≠ rc_Y c ∧
    rc_no_dims c = dims_ op.
Proof.
  intros Hop Hc. apply constructed_inv in Hop as [HV _].
  destruct (RunOnDevice_trace uninitialized embed op s c HV Hc)
    as (N & D & x & y & Hpre & Hx & Ho & ->).
  destruct Hpre as [(x' & tX & Hx' & HX & HdX & _) _].
  assert (x' = x) as -> by congruence.
  apply (Verify_TSNE_schema uninitialized embed) in HV as (x0 & y0 & Hne & Ho0 & Hi).
  assert (y0 = y) as -> by congruence.
  assert (x0 = x) as ->
    by (destruct Hi as [Hi|Hi]; rewrite Hi in Hx; cbn in Hx; congruence).
  exists tX. cbn [expected_call rc_X rc_N rc_D rc_Y rc_no_dims].
  rewrite Ho. split_and!; auto.
Qed.

(** X5: [RunOnDevice] calls [run] exactly once when the shape and type
    preconditions hold and not at all otherwise; the calls noted before the
    invocation stay in the trace. *)
Theorem run_is_called_once_iff_checks_pass (op : TSNEOp) (s : State) :
  constructed op →
  (¬ (∃ N D, preconditions op (blobs s) N D) ∧
   run_calls (RunOnDevice uninitialized embed op s).2 = run_calls s) ∨
  (∃ N D c, preconditions op (blobs s) N D ∧
            rc_N c = N ∧ rc_D c = D ∧
            run_calls (RunOnDevice uninitialized embed op s).2 = run_calls s ++ [c]).
Proof.
  intros Hop. apply constructed_inv in Hop as [HV _].
  destruct (preconditions_dec op (blobs s)) as [(N & D & Hpre)|Hnot].
  - right.
    destruct (RunOnDevice_result uninitialized embed op s N D HV Hpre)
      as (x & y & tX & _ & _ & _ & _ & Hc & _).
    exists N, D, (expected_call op x y N D). auto.
  - left. split; [exact Hnot|].
    destruct (RunOnDevice_fail uninitialized embed op s HV Hnot) as [msg ->].
    reflexivity.
Qed.

(** X6: whenever [RunOnDevice] returns, it returns true: for any operator
    and any state, constructed through the schema or not. *)
Theorem RunOnDevice_returns_only_true (op : TSNEOp) (s s' : State) (b : bool) :
  RunOnDevice uninitialized embed op s = (Ok b, s') → b = true.
Proof.
  unfold RunOnDevice. cbv zeta. intros H.
  repeat (apply bind_Ok_inv in H as (? & ? & _ & H); cbv beta in H).
  rewrite mret_unfold in H. congruence.
Qed.

(** X7: creation and invocation composed: for a definition that supplies
    the integer [d] as [dims], once the operator is created and the checks of
    an invocation pass on an input of N rows, the output blob holds a tensor
    of doubles of shape (N, d), whatever that blob held before. *)
Theorem output_is_N_by_supplied_dims
    (def : OperatorDef) (a : Argument) (d : int)
    (op : TSNEOp) (s0 s0' s : State) (N D : int) :
  arg def !! "dims" = Some a →
  arg_i a = Some d →
  CreateOperator def s0 = (Ok op, s0') →
  preconditions op (blobs s) N D →
  ∃ y Y, output def = [y] ∧
         blobs (RunOnDevice uninitialized embed op s).2 !! y = Some (BTensor Y) ∧
         dims Y = [N; d] ∧ meta Y = TDouble.
Proof.
  intros Ha Hd Hcreate Hpre.
  unfold CreateOperator in Hcreate. rewrite bind_unfold in Hcreate.
  destruct (Verify TSNE_schema def) eqn:HV; [|discriminate].
  rewrite CAFFE_ENFORCE_true in Hcreate.
  apply TSNEOp_new_Ok in Hcreate as (_ & Hdef & _ & Hdims & _).
  unfold arg_value in Hdims. rewrite Ha in Hdims.
  assert (dims_ op = d) as Hd' by (cbv [arg_field int_ArgType] in Hdims; congruence).
  rewrite <- Hdef in HV.
  destruct (RunOnDevice_result uninitialized embed op s N D HV Hpre)
    as (x & y & tX & _ & Ho & _ & _ & _ & _ & Hbig & Hsmall).
  exists y. rewrite <- Hdef, <- Hd'.
  destruct (perplexity_too_large (perplexity_ op) N).
  - destruct (Hbig eq_refl) as [_ HY]. eauto.
  - destruct (Hsmall eq_refl) as [_ HY]. eauto.
Qed.

(** X8: an invocation touches no blob of the workspace other than the
    first input and the output of the operator: [run] is handed pointers
    into these two and nothing else is written. *)
Theorem other_blobs_untouched (op : TSNEOp) (s : State) (x y k : string) :
  constructed op →
  input (operator_def op) !! 0%nat = Some x →
  output (operator_def op) !! 0%nat = Some y →
  k ≠ x → k ≠ y →
  blobs (RunOnDevice uninitialized embed op s).2 !! k = blobs s !! k.
Proof.
  intros Hop Hx Hy _ Hky. apply constructed_inv in Hop as [HV _].
  destruct (preconditions_dec op (blobs s)) as [(N & D & Hpre)|Hnot].
  - destruct (RunOnDevice_result uninitialized embed op s N D HV Hpre)
      as (x' & y' & tX & _ & Ho & _ & _ & _ & Hk & _).
    rewrite Ho in Hy. injection Hy as <-. apply Hk. exact Hky.
  - destruct (RunOnDevice_fail uninitialized embed op s HV Hnot) as [msg ->].
    reflexivity.
Qed.

(** X9: for an operator that passed the schema, [Input(0)], [Input(1)] and
    [Output(0)] are never asked for beyond the operator's input and output
    lists: no invocation ends in an out-of-range error. *)
Theorem no_out_of_range_access (op : TSNEOp) (s : State) :
  constructed op →
  (RunOnDevice uninitialized embed op s).1 ≠ Throw OutOfRange.
Proof.
  intros Hop. apply constructed_inv in Hop as [HV _].
  destruct (preconditions_dec op (blobs s)) as [(N & D & Hpre)|Hnot].
  - destruct (RunOnDevice_result uninitialized embed op s N D HV Hpre)
      as (x & y & tX & _ & _ & _ & _ & _ & _ & Hbig & Hsmall).
    destruct (perplexity_too_large (perplexity_ op) N).
    + destruct (Hbig eq_refl) as [-> _]. discriminate.
    + destruct (Hsmall eq_refl) as [-> _]. discriminate.
  - destruct (RunOnDevice_fail uninitialized embed op s HV Hnot) as [msg ->].
    discriminate.
Qed.

End Adapter.

(** ** The further properties on the sample operators *)

Lemma creation_refuses_wrong_arity_witness :
  length (input def_three_inputs) ≠ 1%nat ∧
  length (input def_three_inputs) ≠ 2%nat ∧
  (∃ msg, CreateOperator def_three_inputs state_XY
          = (Throw (EnforceNotMet msg), state_XY)) ∧
  length (output def_two_outputs) ≠ 1%nat ∧
  (∃ msg, CreateOperator def_two_outputs state_X
          = (Throw (EnforceNotMet msg), state_X)).
Proof.
  split_and!.
  - vm_compute. discriminate.
  - vm_compute. discriminate.
  - apply (creation_refuses_wrong_arity def_three_inputs state_XY).
    left. split; vm_compute; discriminate.
  - vm_compute. discriminate.
  - apply (creation_refuses_wrong_arity def_two_outputs state_X).
    right. vm_compute. discriminate.
Defined.

Lemma non_2d_input_is_reported_first_witness :
  input (operator_def op_two_inputs) !! 0%nat = Some "X" ∧
  blobs state_bad !! "X"
    = Some (BTensor {| dims := [4]; meta := TFloat; storage := [] |}) ∧
  RunOnDevice sample_uninitialized sample_embed op_two_inputs state_bad =
  (Throw (EnforceNotMet "TSNE expects a 2-dimensional tensor as input."), state_bad).
Proof.
  split_and!.
  - by_computation.
  - by_computation.
  - apply (non_2d_input_is_reported_first sample_uninitialized sample_embed
             op_two_inputs state_bad "X"
             {| dims := [4]; meta := TFloat; storage := [] |}).
    + by_computation.
    + by_computation.
    + vm_compute. discriminate.
Defined.

Lemma non_double_input_is_reported_witness :
  input (operator_def op_one_input) !! 0%nat = Some "X" ∧
  blobs state_float !! "X"
    = Some (BTensor {| dims := [4; 3]; meta := TFloat; storage := [] |}) ∧
  RunOnDevice sample_uninitialized sample_embed op_one_input state_float =
  (Throw (EnforceNotMet "TSNE expects the input to be of data type double."),
   state_float).
Proof.
  split_and!.
  - by_computation.
  - by_computation.
  - apply (non_double_input_is_reported sample_uninitialized sample_embed
             op_one_input state_float "X"
             {| dims := [4; 3]; meta := TFloat; storage := [] |}).
    + by_computation.
    + by_computation.
    + by_computation.
    + discriminate.
Defined.

Lemma run_call_describes_the_input_witness :
  constructed op_two_inputs ∧
  run_calls (RunOnDevice sample_uninitialized sample_embed op_two_inputs state_XY).2
    = run_calls state_XY ++ [expected_call op_two_inputs "X" "Y" 4 3] ∧
  ∃ tX,
    input (operator_def op_two_inputs) !! 0%nat = Some "X" ∧
    blobs state_XY !! "X" = Some (BTensor tX) ∧
    dims tX = [4; 3] ∧
    output (operator_def op_two_inputs) !! 0%nat = Some "Y" ∧
    "X" ≠ "Y" ∧
    2 = dims_ op_two_inputs.
Proof.
  split_and!.
  - exact op_two_inputs_constructed.
  - by_computation.
  - apply (run_call_describes_the_input sample_uninitialized sample_embed
             op_two_inputs state_XY (expected_call op_two_inputs "X" "Y" 4 3)).
    + exact op_two_inputs_constructed.
    + by_computation.
Defined.

Lemma run_is_called_once_iff_checks_pass_witness :
  constructed op_one_input ∧
  ((¬ (∃ N D, preconditions op_one_input (blobs state_X) N D) ∧
    run_calls (RunOnDevice sample_uninitialized sample_embed op_one_input state_X).2
      = run_calls state_X) ∨
   (∃ N D c, preconditions op_one_input (blobs state_X) N D ∧
             rc_N c = N ∧ rc_D c = D ∧
             run_calls (RunOnDevice sample_uninitialized sample_embed
                          op_one_input state_X).2
               = run_calls state_X ++ [c])).
Proof.
  split.
  - exact op_one_input_constructed.
  - apply (run_is_called_once_iff_checks_pass sample_uninitialized sample_embed
             op_one_input state_X).
    exact op_one_input_constructed.
Defined.

Lemma RunOnDevice_returns_only_true_witness :
  RunOnDevice sample_uninitialized sample_embed op_one_input state_X
    = (Ok true, (RunOnDevice sample_uninitialized sample_embed op_one_input state_X).2) ∧
  true = true.
Proof.
  assert (H : RunOnDevice sample_uninitialized sample_embed op_one_input state_X
              = (Ok true, (RunOnDevice sample_uninitialized sample_embed
                             op_one_input state_X).2)) by by_computation.
  split; [exact H|].
  symmetry.
  exact (RunOnDevice_returns_only_true sample_uninitialized sample_embed
           op_one_input state_X _ true H).
Defined.

Lemma output_is_N_by_supplied_dims_witness :
  arg def_one_input !! "dims" = Some (int_arg 2) ∧
  arg_i (int_arg 2) = Some 2 ∧
  CreateOperator def_one_input state_X = (Ok op_one_input, state_X) ∧
  preconditions op_one_input (blobs state_X) 4 3 ∧
  ∃ y Y, output def_one_input = [y] ∧
         blobs (RunOnDevice sample_uninitialized sample_embed op_one_input state_X).2 !! y
           = Some (BTensor Y) ∧
         dims Y = [4; 2] ∧ meta Y = TDouble.
Proof.
  assert (Hc : CreateOperator def_one_input state_X = (Ok op_one_input, state_X))
    by by_computation.
  split_and!.
  - by_computation.
  - reflexivity.
  - exact Hc.
  - exact one_input_preconditions.
  - apply (output_is_N_by_supplied_dims sample_uninitialized sample_embed
             def_one_input (int_arg 2) 2 op_one_input state_X state_X state_X 4 3).
    + by_computation.
    + reflexivity.
    + exact Hc.
    + exact one_input_preconditions.
Defined.

Lemma other_blobs_untouched_witness :
  constructed op_one_input ∧
  input (operator_def op_one_input) !! 0%nat = Some "X" ∧
  output (operator_def op_one_input) !! 0%nat = Some "Y" ∧
  "Z" ≠ "X" ∧ "Z" ≠ "Y" ∧
  blobs (RunOnDevice sample_uninitialized sample_embed op_one_input state_X).2 !! "Z"
    = blobs state_X !! "Z".
Proof.
  split_and!.
  - exact op_one_input_constructed.
  - by_computation.
  - by_computation.
  - discriminate.
  - discriminate.
  - apply (other_blobs_untouched sample_uninitialized sample_embed
             op_one_input state_X "X" "Y" "Z").
    + exact op_one_input_constructed.
    + by_computation.
    + by_computation.
    + discriminate.
    + discriminate.
Defined.

Lemma no_out_of_range_access_witness :
  constructed op_two_inputs ∧
  (RunOnDevice sample_uninitialized sample_embed op_two_inputs state_X).1
    ≠ Throw OutOfRange.
Proof.
  split.
  - exact op_two_inputs_constructed.
  - apply (no_out_of_range_access sample_uninitialized sample_embed
             op_two_inputs state_X).
    exact op_two_inputs_constructed.
Defined.
